(** * web-tester: the event store, the body fetcher and the persistence sink

    A shallow embedding of [internal/browser/events.go],
    [internal/browser/browser.go] and [internal/database/database.go].
    Go strings and byte slices are byte sequences: [string] for the former,
    [list byte] for the latter.  A Go map is a [gmap]; the [nil] map, which
    reads like the empty map but cannot be assigned to, is [None]. *)

From Stdlib Require Import Strings.Ascii Strings.String Strings.Byte.
From stdpp Require Import gmap strings list fin_maps.

(** ** Outcomes of Go code: a value, a run-time panic, or a goroutine that
    waits for ever on a mutex nobody releases *)

Inductive Outcome (A : Type) : Type :=
| Return (a : A)
| Panic (msg : string)
| Blocked.
Arguments Return {A} a.
Arguments Panic {A} msg.
Arguments Blocked {A}.

Definition bindO {A B} (o : Outcome A) (k : A -> Outcome B) : Outcome B :=
  match o with
  | Return a => k a
  | Panic msg => Panic msg
  | Blocked => Blocked
  end.

Notation "x <-! o ;; k" := (bindO o (fun x => k))
  (at level 100, o at next level, right associativity).

(** Go [error] values, by the way they are built. *)
Inductive GoError : Type :=
| errors_New (text : string)                        (* errors.New(text) *)
| fmt_Errorf (prefix : string) (err : GoError)      (* fmt.Errorf(prefix + "%v", err) *)
| url_Error (Op URL : string) (Err : GoError)       (* &url.Error{Op, URL, Err} *)
| url_EscapeError (s : string)
| url_InvalidHostError (s : string)
| external_error (text : string).                   (* an error of a collaborator *)

(** An [error] result: [None] is [nil]. *)
Abbreviation error := (option GoError).

(** A Go [(value, error)] pair of which one side is meaningful. *)
Inductive Result (A : Type) : Type :=
| Ok (a : A)
| Err (e : GoError).
Arguments Ok {A} a.
Arguments Err {A} e.

(** ** The payloads carried in [Content interface{}] (cdproto/network) *)

Module network.

Abbreviation RequestID := string.

(** [type PostDataEntry struct { Bytes string }] *)
Record PostDataEntry := { Bytes : string }.

(** The fields of [network.Request] the program reads;
    [PostDataEntries] is a [[]*PostDataEntry]. *)
Record Request := {
  Request_URL : string;
  PostDataEntries : list (option PostDataEntry)
}.

Record Response := { Response_URL : string }.

Record EventRequestWillBeSent := {
  RWBS_RequestID : RequestID;
  RWBS_Request : option Request          (* *Request *)
}.

Record EventResponseReceived := {
  RR_RequestID : RequestID;
  RR_Response : option Response          (* *Response *)
}.

Record EventLoadingFinished := { LF_RequestID : RequestID }.

End network.

(** The dynamic values an [interface{}] holds in this program: the [nil]
    interface, or a pointer (possibly [nil]) to one of the two events. *)
Inductive any : Type :=
| nil_interface
| PtrEventRequestWillBeSent (ev : option network.EventRequestWillBeSent)
| PtrEventResponseReceived (ev : option network.EventResponseReceived).

(** ** events.go *)

(** [Request] and [Response] are two named types over one struct type, which
    is also the anonymous struct [InsertIntoDB] takes. *)
Record Event := {
  RequestID : network.RequestID;
  Type_ : string;
  URL : string;
  Content : any;
  Body : list byte
}.

Abbreviation Request := Event.
Abbreviation Response := Event.

(** The zero value of the struct: what reading a missing map key yields. *)
Definition zero_Event : Event :=
  {| RequestID := ""; Type_ := ""; URL := ""; Content := nil_interface; Body := [] |}.

Definition with_Body (r : Event) (b : list byte) : Event :=
  {| RequestID := RequestID r; Type_ := Type_ r; URL := URL r;
     Content := Content r; Body := b |}.

Abbreviation Requests := (list Request).

(** [sync.Mutex] is [true] while held. *)
Record Responses := {
  mu : bool;
  ResponseMap : option (gmap network.RequestID Response)
}.

(** [var responses = browser.Responses{}] *)
Definition zero_Responses : Responses := {| mu := false; ResponseMap := None |}.

(** Reading [m[k]]: the zero value when the key is absent or the map is nil. *)
Definition map_index (m : option (gmap network.RequestID Response))
    (k : network.RequestID) : Response :=
  match m with
  | Some g => default zero_Event (g !! k)
  | None => zero_Event
  end.

(** Assigning [m[k] = v]: a panic on the nil map. *)
Definition map_assign (m : option (gmap network.RequestID Response))
    (k : network.RequestID) (v : Response)
  : Outcome (option (gmap network.RequestID Response)) :=
  match m with
  | Some g => Return (Some (<[k := v]> g))
  | None => Panic "assignment to entry in nil map"
  end.

(** [func (r *Responses) Add(response Response)]: the mutex is not taken. *)
Definition Responses_Add (response : Response) (r : Responses) : Responses :=
  let m := match ResponseMap r with
           | None => ∅                      (* make(map[...]Response) *)
           | Some g => g
           end in
  {| mu := mu r; ResponseMap := Some (<[RequestID response := response]> m) |}.

(** [func (rqs *Requests) Add(request Request)] *)
Definition Requests_Add (request : Request) (rqs : Requests) : Requests :=
  rqs ++ [request].

(** The loop [for _, entry := range postDataEntries { postData += entry.Bytes }];
    dereferencing a nil entry panics. *)
Fixpoint range_postDataEntries (postDataEntries : list (option network.PostDataEntry))
    (postData : string) : Outcome string :=
  match postDataEntries with
  | [] => Return postData
  | Some entry :: rest => range_postDataEntries rest (postData +:+ network.Bytes entry)
  | None :: _ => Panic "invalid memory address or nil pointer dereference"
  end.

(** [func (r *Request) SetBody(ctx context.Context)]; [ctx] is not used. *)
Definition SetBody (r : Request) : Outcome Request :=
  if negb (String.eqb (Type_ r) "request") then Return r
  else
    match Content r with
    | PtrEventRequestWillBeSent (Some ev) =>
        match network.RWBS_Request ev with
        | Some req =>
            postData <-! range_postDataEntries (network.PostDataEntries req) "" ;;
            Return (with_Body r (list_byte_of_string postData))
        | None => Panic "invalid memory address or nil pointer dereference"
        end
    | PtrEventRequestWillBeSent None =>
        Panic "invalid memory address or nil pointer dereference"
    | _ => Panic "interface conversion"
    end.

(** ** browser.go *)

Inductive Level := LevelDebug | LevelInfo | LevelError.

(** The [*slog.Logger]: the records written so far, message only. *)
Abbreviation Logger := (list (Level * string)).

Definition Logger_log (lv : Level) (msg : string) (l : Logger) : Logger :=
  l ++ [(lv, msg)].

(** What [chromedp.Run(b.ctx, chromedp.ActionFunc(...))] does with the
    action that calls [network.GetResponseBody(id).Do(ctx)]: [Run] fails
    before the action runs, or the call fails, or it returns the body. *)
Inductive Answer :=
| RunError (e : GoError)
| DoError (e : GoError)
| DoBody (body : list byte).

(** The browser session behind [b.ctx].  Its answers are not under the
    program's control: [answers n id] is the answer to the [n]-th call when
    it asks for [id]; [calls] records the calls made. *)
Record Session := {
  answers : nat -> network.RequestID -> Answer;
  calls : list (network.RequestID * Answer)
}.

Definition Session_Run (id : network.RequestID) (s : Session) : Answer * Session :=
  let a := answers s (length (calls s)) id in
  (a, {| answers := answers s; calls := calls s ++ [(id, a)] |}).

(** The state the methods of [Browser] act on. *)
Record World := {
  logger : Logger;
  ctx : Session;
  responses : Responses
}.

Definition Mutex_Lock (r : Responses) : Outcome Responses :=
  if mu r then Blocked
  else Return {| mu := true; ResponseMap := ResponseMap r |}.

Definition Mutex_Unlock (r : Responses) : Outcome Responses :=
  if mu r then Return {| mu := false; ResponseMap := ResponseMap r |}
  else Panic "sync: unlock of unlocked mutex".

(** [func (b *Browser) GetResponseBody(logger, r *Response, responses *Responses) error].
    Returns the error, the caller's [*r] as the call leaves it, and the world. *)
Definition GetResponseBody (r : Response) (w : World)
  : Outcome (error * Response * World) :=
  let lg := Logger_log LevelInfo "initial response body length: " (logger w) in
  let '(a, ctx') := Session_Run (RequestID r) (ctx w) in
  match a with
  | RunError e =>
      Return (Some (fmt_Errorf "could not get response body: " e), r,
              {| logger := lg; ctx := ctx'; responses := responses w |})
  | DoError e =>
      let lg' := Logger_log LevelError "failed to get response body: " lg in
      Return (Some (fmt_Errorf "could not get response body: "
                      (fmt_Errorf "failed to get response body: " e)), r,
              {| logger := lg'; ctx := ctx'; responses := responses w |})
  | DoBody body =>
      let r' := with_Body r body in                       (* r.Body = body *)
      rs <-! Mutex_Lock (responses w) ;;
      (* a panic in the assignment runs the deferred Unlock and goes on *)
      m <-! map_assign (ResponseMap rs) (RequestID r') r' ;;
      rs' <-! Mutex_Unlock {| mu := mu rs; ResponseMap := m |} ;;
      Return (None, r', {| logger := lg; ctx := ctx'; responses := rs' |})
  end.

(** One turn of the loop [for event := range *f] of [WatchEventFinishers]:
    the error [GetResponseBody] returns is dropped. *)
Definition watch_event (event : network.EventLoadingFinished) (w : World)
  : Outcome World :=
  let lg := Logger_log LevelInfo "EventLoadingFinished, getting body:" (logger w) in
  rs <-! Mutex_Lock (responses w) ;;
  let resp := map_index (ResponseMap rs) (network.LF_RequestID event) in
  rs' <-! Mutex_Unlock rs ;;
  res <-! GetResponseBody resp {| logger := lg; ctx := ctx w; responses := rs' |} ;;
  Return (snd res).

(** [WatchEventFinishers] on the notifications the channel delivers, in order. *)
Fixpoint WatchEventFinishers (f : list network.EventLoadingFinished) (w : World)
  : Outcome World :=
  match f with
  | [] => Return w
  | event :: f' => w' <-! watch_event event w ;; WatchEventFinishers f' w'
  end.

(** The [*network.EventResponseReceived] case of [ListenToEvents]. *)
Definition on_EventResponseReceived (ev : network.EventResponseReceived) (w : World)
  : Outcome World :=
  match network.RR_Response ev with
  | None => Panic "invalid memory address or nil pointer dereference"
  | Some rsp =>
      let lg := Logger_log LevelInfo "EventResponseReceived:" (logger w) in
      Return {| logger := lg; ctx := ctx w;
                responses :=
                  Responses_Add {| RequestID := network.RR_RequestID ev;
                                   Type_ := "response";
                                   URL := network.Response_URL rsp;
                                   Content := PtrEventResponseReceived (Some ev);
                                   Body := [] |} (responses w) |}
  end.

(** ** The Go standard library functions [InsertIntoDB] calls *)

(** Package [strings], on byte strings. *)
Module strings.

Definition HasPrefix (s prefix : string) : bool := String.prefix prefix s.

(** [s[:i]] and [s[i:]] *)
Definition upto (i : nat) (s : string) : string := String.substring 0 i s.
Definition from (i : nat) (s : string) : string :=
  String.substring i (String.length s - i) s.

Definition HasSuffix (s suffix : string) : bool :=
  (String.length suffix <=? String.length s)%nat &&
  String.eqb (from (String.length s - String.length suffix) s) suffix.

(** [Index]: [None] is Go's [-1]. *)
Fixpoint Index (s substr : string) : option nat :=
  if String.prefix substr s then Some 0
  else match s with
       | EmptyString => None
       | String _ s' => option_map S (Index s' substr)
       end.

Fixpoint LastIndex (s substr : string) : option nat :=
  match s with
  | EmptyString => if String.prefix substr s then Some 0 else None
  | String _ s' =>
      match LastIndex s' substr with
      | Some i => Some (S i)
      | None => if String.prefix substr s then Some 0 else None
      end
  end.

Definition Contains (s substr : string) : bool :=
  match Index s substr with Some _ => true | None => false end.

(** [Cut]: before, after, found. *)
Definition Cut (s sep : string) : string * string * bool :=
  match Index s sep with
  | Some i => (upto i s, from (i + String.length sep) s, true)
  | None => (s, "", false)
  end.

(** [Count] and [Split] for a non-empty separator, the only use the
    program and [net/url] make of them. *)
Fixpoint Count_from (fuel : nat) (s substr : string) : nat :=
  match fuel with
  | O => 0
  | S fuel' =>
      match Index s substr with
      | Some i => S (Count_from fuel' (from (i + String.length substr) s) substr)
      | None => 0
      end
  end.

Definition Count (s substr : string) : nat :=
  Count_from (String.length s) s substr.

Fixpoint Split_from (fuel : nat) (s sep : string) : list string :=
  match fuel with
  | O => [s]
  | S fuel' =>
      match Index s sep with
      | Some i => upto i s :: Split_from fuel' (from (i + String.length sep) s) sep
      | None => [s]
      end
  end.

Definition Split (s sep : string) : list string :=
  Split_from (String.length s) s sep.

Definition byte_le (a b : ascii) : bool := (nat_of_ascii a <=? nat_of_ascii b)%nat.
Definition between (lo hi c : ascii) : bool := byte_le lo c && byte_le c hi.

(** [ToLower] on the ASCII letters. *)
Definition lower (c : ascii) : ascii :=
  if between "A" "Z" c then ascii_of_nat (nat_of_ascii c + 32) else c.

Fixpoint ToLower (s : string) : string :=
  match s with
  | EmptyString => EmptyString
  | String c s' => String (lower c) (ToLower s')
  end.

End strings.

(** Package [net/url] (Go 1.22): [Parse] and what it calls.  [RawPath] and
    [RawFragment], which need [escape] and which the program never reads,
    are left out of the [URL] struct. *)
Module url.
Import strings.

Inductive encoding :=
| encodePath | encodePathSegment | encodeHost | encodeZone
| encodeUserPassword | encodeQueryComponent | encodeFragment.

Definition is_host_or_zone (mode : encoding) : bool :=
  match mode with encodeHost | encodeZone => true | _ => false end.

Fixpoint one_of (c : ascii) (cs : string) : bool :=
  match cs with
  | EmptyString => false
  | String c' cs' => Ascii.eqb c c' || one_of c cs'
  end.

Definition ishex (c : ascii) : bool :=
  between "0" "9" c || between "a" "f" c || between "A" "F" c.

Definition unhex (c : ascii) : nat :=
  if between "0" "9" c then nat_of_ascii c - 48
  else if between "a" "f" c then nat_of_ascii c - 97 + 10
  else if between "A" "F" c then nat_of_ascii c - 65 + 10
  else 0.

Definition shouldEscape (c : ascii) (mode : encoding) : bool :=
  if between "a" "z" c || between "A" "Z" c || between "0" "9" c then false
  else if is_host_or_zone mode
          && (one_of c "!$&'()*+,;=:[]<>" || (nat_of_ascii c =? 34)%nat)   (* 34: the double quote *)
  then false
  else if one_of c "-_.~" then false
  else if one_of c "$&+,/:;=?@" then
    match mode with
    | encodePath => Ascii.eqb c "?"
    | encodePathSegment => one_of c "/;,?"
    | encodeUserPassword => one_of c "@/?:"
    | encodeQueryComponent => true
    | encodeFragment => false
    | _ => true
    end
  else if match mode with encodeFragment => one_of c "!()*" | _ => false end then false
  else true.

Definition is_encodeHost (mode : encoding) : bool :=
  match mode with encodeHost => true | _ => false end.
Definition is_encodeZone (mode : encoding) : bool :=
  match mode with encodeZone => true | _ => false end.
Definition is_encodeQueryComponent (mode : encoding) : bool :=
  match mode with encodeQueryComponent => true | _ => false end.

(** [unescape]: the checking pass and the rewriting pass in one descent;
    the error is that of the first offending position, as in the source. *)
Fixpoint unescape (s : string) (mode : encoding) : Result string :=
  match s with
  | EmptyString => Ok EmptyString
  | String c rest =>
      if Ascii.eqb c "%" then
        match rest with
        | String a (String b rest') =>
            if negb (ishex a && ishex b) then Err (url_EscapeError (upto 3 s))
            else if is_encodeHost mode && (unhex a <? 8)%nat
                    && negb (String.eqb (upto 3 s) "%25")
            then Err (url_EscapeError (upto 3 s))
            else
              let v := ascii_of_nat (unhex a * 16 + unhex b) in
              if is_encodeZone mode && negb (String.eqb (upto 3 s) "%25")
                 && negb (Ascii.eqb v " ") && shouldEscape v encodeHost
              then Err (url_EscapeError (upto 3 s))
              else
                match unescape rest' mode with
                | Ok t => Ok (String v t)
                | Err e => Err e
                end
        | _ => Err (url_EscapeError (upto 3 s))
        end
      else if Ascii.eqb c "+" then
        match unescape rest mode with
        | Ok t => Ok (String (if is_encodeQueryComponent mode then " "%char else "+"%char) t)
        | Err e => Err e
        end
      else if is_host_or_zone mode && (nat_of_ascii c <? 128)%nat
              && shouldEscape c encodeHost
      then Err (url_InvalidHostError (String c EmptyString))
      else
        match unescape rest mode with
        | Ok t => Ok (String c t)
        | Err e => Err e
        end
  end.

Record Userinfo := {
  username : string;
  password : string;
  passwordSet : bool
}.

Record URL := {
  Scheme : string;
  Opaque : string;
  User : option Userinfo;
  Host : string;
  Path : string;
  OmitHost : bool;
  ForceQuery : bool;
  RawQuery : string;
  Fragment : string
}.

Fixpoint stringContainsCTLByte (s : string) : bool :=
  match s with
  | EmptyString => false
  | String b s' =>
      (nat_of_ascii b <? 32)%nat || (nat_of_ascii b =? 127)%nat
      || stringContainsCTLByte s'
  end.

(** [getScheme]: the loop over [i], with [s = rawURL[i:]]. *)
Fixpoint getScheme_from (rawURL : string) (i : nat) (s : string)
  : Result (string * string) :=
  match s with
  | EmptyString => Ok ("", rawURL)
  | String c s' =>
      if between "a" "z" c || between "A" "Z" c then getScheme_from rawURL (S i) s'
      else if between "0" "9" c || one_of c "+-." then
        if (i =? 0)%nat then Ok ("", rawURL) else getScheme_from rawURL (S i) s'
      else if Ascii.eqb c ":" then
        if (i =? 0)%nat then Err (errors_New "missing protocol scheme")
        else Ok (upto i rawURL, s')
      else Ok ("", rawURL)
  end.

Definition getScheme (rawURL : string) : Result (string * string) :=
  getScheme_from rawURL 0 rawURL.

Definition validOptionalPort (port : string) : bool :=
  match port with
  | EmptyString => true
  | String c digits =>
      Ascii.eqb c ":" &&
      forallb (between "0" "9") (list_ascii_of_string digits)
  end.

Definition validUserinfo (s : string) : bool :=
  forallb (fun r => between "A" "Z" r || between "a" "z" r || between "0" "9" r
                    || one_of r "-._:~!$&'()*+,;=%@")
          (list_ascii_of_string s).

Definition parseHost (host : string) : Result string :=
  let generic := unescape host encodeHost in
  if HasPrefix host "[" then
    match LastIndex host "]" with
    | None => Err (errors_New "missing ']' in host")
    | Some i =>
        let colonPort := from (i + 1) host in
        if negb (validOptionalPort colonPort)
        then Err (errors_New "invalid port after host")   (* the message also quotes the port *)
        else
          match Index (upto i host) "%25" with
          | Some zone =>
              match unescape (upto zone host) encodeHost with
              | Err e => Err e
              | Ok host1 =>
                  match unescape (from zone (upto i host)) encodeZone with
                  | Err e => Err e
                  | Ok host2 =>
                      match unescape (from i host) encodeHost with
                      | Err e => Err e
                      | Ok host3 => Ok (host1 +:+ host2 +:+ host3)
                      end
                  end
              end
          | None => generic
          end
    end
  else
    match LastIndex host ":" with
    | Some i =>
        if negb (validOptionalPort (from i host))
        then Err (errors_New "invalid port after host")
        else generic
    | None => generic
    end.

Definition parseAuthority (authority : string) : Result (option Userinfo * string) :=
  let i := LastIndex authority "@" in
  match parseHost (match i with
                   | None => authority
                   | Some i => from (i + 1) authority
                   end) with
  | Err e => Err e
  | Ok host =>
      match i with
      | None => Ok (None, host)
      | Some i =>
          let userinfo := upto i authority in
          if negb (validUserinfo userinfo)
          then Err (errors_New "net/url: invalid userinfo")
          else if negb (Contains userinfo ":") then
            match unescape userinfo encodeUserPassword with
            | Err e => Err e
            | Ok u => Ok (Some {| username := u; password := ""; passwordSet := false |}, host)
            end
          else
            let '(username, password, _) := Cut userinfo ":" in
            match unescape username encodeUserPassword with
            | Err e => Err e
            | Ok u =>
                match unescape password encodeUserPassword with
                | Err e => Err e
                | Ok p => Ok (Some {| username := u; password := p; passwordSet := true |}, host)
                end
            end
      end
  end.

(** [func (u *URL) setPath(p string) error], without [RawPath]. *)
Definition setPath (u : URL) (p : string) : Result URL :=
  match unescape p encodePath with
  | Err e => Err e
  | Ok path =>
      Ok {| Scheme := Scheme u; Opaque := Opaque u; User := User u; Host := Host u;
            Path := path; OmitHost := OmitHost u; ForceQuery := ForceQuery u;
            RawQuery := RawQuery u; Fragment := Fragment u |}
  end.

(** [func (u *URL) setFragment(f string) error], without [RawFragment]. *)
Definition setFragment (u : URL) (f : string) : Result URL :=
  match unescape f encodeFragment with
  | Err e => Err e
  | Ok frag =>
      Ok {| Scheme := Scheme u; Opaque := Opaque u; User := User u; Host := Host u;
            Path := Path u; OmitHost := OmitHost u; ForceQuery := ForceQuery u;
            RawQuery := RawQuery u; Fragment := frag |}
  end.

(** [func parse(rawURL string, viaRequest bool)], returning the URL or the error *)
Definition parse (rawURL : string) (viaRequest : bool) : Result URL :=
  if stringContainsCTLByte rawURL
  then Err (errors_New "net/url: invalid control character in URL")
  else if String.eqb rawURL "" && viaRequest then Err (errors_New "empty url")
  else if String.eqb rawURL "*" then
    Ok {| Scheme := ""; Opaque := ""; User := None; Host := ""; Path := "*";
          OmitHost := false; ForceQuery := false; RawQuery := ""; Fragment := "" |}
  else
    match getScheme rawURL with
    | Err e => Err e
    | Ok (scheme, rest) =>
        let scheme := ToLower scheme in
        let '(rest, forceQuery, rawQuery) :=
          if HasSuffix rest "?" && (Count rest "?" =? 1)%nat
          then (upto (String.length rest - 1) rest, true, "")
          else let '(before, after, _) := Cut rest "?" in (before, false, after) in
        let stop :=
          (* what the block under [!strings.HasPrefix(rest, "/")] returns, if it does *)
          if negb (HasPrefix rest "/") then
            if negb (String.eqb scheme "") then
              Some (Ok {| Scheme := scheme; Opaque := rest; User := None; Host := "";
                          Path := ""; OmitHost := false; ForceQuery := forceQuery;
                          RawQuery := rawQuery; Fragment := "" |})
            else if viaRequest then Some (Err (errors_New "invalid URI for request"))
            else
              let '(segment, _, _) := Cut rest "/" in
              if Contains segment ":"
              then Some (Err (errors_New "first path segment in URL cannot contain colon"))
              else None
          else None in
        match stop with
        | Some r => r
        | None =>
            let authority_result :=
              if (negb (String.eqb scheme "")
                  || (negb viaRequest && negb (HasPrefix rest "///")))
                 && HasPrefix rest "//"
              then
                let authority := from 2 rest in
                let '(authority, rest) :=
                  match Index authority "/" with
                  | Some i => (upto i authority, from i authority)
                  | None => (authority, "")
                  end in
                match parseAuthority authority with
                | Err e => Err e
                | Ok (user, host) => Ok (user, host, false, rest)
                end
              else if negb (String.eqb scheme "") && HasPrefix rest "/"
              then Ok (None, "", true, rest)
              else Ok (None, "", false, rest) in
            match authority_result with
            | Err e => Err e
            | Ok (user, host, omitHost, rest) =>
                setPath {| Scheme := scheme; Opaque := ""; User := user; Host := host;
                           Path := ""; OmitHost := omitHost; ForceQuery := forceQuery;
                           RawQuery := rawQuery; Fragment := "" |} rest
            end
        end
    end.

(** [func Parse(rawURL string)], returning the URL or the error *)
Definition Parse (rawURL : string) : Result URL :=
  let '(u, frag, _) := Cut rawURL "#" in
  match parse u false with
  | Err err => Err (url_Error "parse" u err)
  | Ok url =>
      if String.eqb frag "" then Ok url
      else
        match setFragment url frag with
        | Err err => Err (url_Error "parse" rawURL err)
        | Ok url' => Ok url'
        end
  end.

End url.

(** ** database.go *)

(** One row of the [events] table, as the [INSERT] of [InsertIntoDB] fills it
    (columns [test_id], [type], [domain], [payload], [body]). *)
Record Row := {
  test_id : string;
  type : string;
  domain : string;
  payload : string;
  body : list byte
}.

(** The [*sql.DB] handle: the rows of [events], and the verdict of the server
    on an [INSERT] (connectivity, a constraint), which the program does not
    control: [refuses rows row] is the error of the write, if it fails. *)
Record DB := {
  events : list Row;
  refuses : list Row -> Row -> error
}.

(** [db.Exec("INSERT INTO events (...) VALUES ($1, $2, $3, $4, $5)", ...)] *)
Definition DB_Exec (db : DB) (row : Row) : error * DB :=
  match refuses db (events db) row with
  | Some err => (Some err, db)
  | None => (None, {| events := events db ++ [row]; refuses := refuses db |})
  end.

Section Database.

(** [json.Marshal] on the payload: the text, or the error. *)
Variable json_Marshal : any -> Result string.

(** [func InsertIntoDB(logger, db, testID, event) error]; [db] is [None] for
    the nil handle [main] is left with when [Init] fails. *)
Definition InsertIntoDB (lg : Logger) (db : option DB) (testID : string)
    (event : Event) : Outcome (error * Logger * option DB) :=
  let '(eventJSON, lg) :=
    match json_Marshal (Content event) with
    | Ok j => (j, lg)
    | Err err => ("", Logger_log LevelError "failed to marshal event content: " lg)
    end in
  match url.Parse (URL event) with
  | Err err => Return (Some (fmt_Errorf "failed to parse URL: " err), lg, db)
  | Ok parsedURL =>
      let host := url.Host parsedURL in
      match strings.Split host ":" with
      | [] => Panic "index out of range [0] with length 0"
      | host :: _ =>
          let lg := Logger_log LevelDebug "Inserting into events table: " lg in
          match db with
          | None => Panic "invalid memory address or nil pointer dereference"
          | Some d =>
              let '(err, d') :=
                DB_Exec d {| test_id := testID; type := Type_ event; domain := host;
                             payload := eventJSON; body := Body event |} in
              match err with
              | Some err =>
                  Return (Some (fmt_Errorf "failed to insert into events table: " err),
                          lg, Some d')
              | None => Return (None, lg, Some d')
              end
          end
      end
  end.

End Database.

(** ** The goroutines of [ListenToEvents] and [WatchEventFinishers], interleaved

    One goroutine runs the loop of [WatchEventFinishers]; every browser event
    is handled in a goroutine of its own, started by the listener.  A step is
    one statement of one goroutine.  [Watcher] is the place the loop is at,
    with its local variables; [Handler] is the place a handler goroutine is
    at, with its own. *)

Inductive Watcher :=
| Receiving                                       (* for event := range *f *)
| AtLock (event : network.EventLoadingFinished)   (* responses.mu.Lock() *)
| AtRead (event : network.EventLoadingFinished)   (* resp := responses.ResponseMap[...] *)
| AtUnlock (resp : Response)                      (* responses.mu.Unlock() *)
| AtRun (r : Response)                            (* GetResponseBody: chromedp.Run(...) *)
| AtLock' (r : Response)                          (* responses.mu.Lock() *)
| AtAssign (r : Response)                         (* responses.ResponseMap[r.RequestID] = *r *)
| AtUnlock'.                                      (* the deferred Unlock *)

Inductive Handler :=
| RespLog (ev : network.EventResponseReceived)    (* logger.Info("EventResponseReceived:", ...) *)
| RespAdd (ev : network.EventResponseReceived)    (* responses.Add(Response{...}): the call *)
| AddTest (response : Response)                   (* Add: if r.ResponseMap == nil *)
| AddMake (response : Response)                   (* Add: r.ResponseMap = make(...) *)
| AddStore (response : Response)                  (* Add: r.ResponseMap[response.RequestID] = response *)
| FinLog (ev : network.EventLoadingFinished)      (* logger.Info("EventLoadingFinished:", ...) *)
| FinSend (ev : network.EventLoadingFinished)     (* *finisherChan <- *ev *)
| Returned.                                       (* the goroutine is over *)

Record System := {
  world : World;
  watcher : Watcher;
  handlers : list Handler
}.

Inductive Step :=
| ResponseReceived (ev : network.EventResponseReceived)  (* the listener starts its goroutine *)
| LoadingFinished (ev : network.EventLoadingFinished)    (* the listener starts its goroutine *)
| Handle (i : nat)                                       (* the [i]-th goroutine started runs
                                                            its next statement *)
| Watch.                                                 (* the loop runs its next statement *)

Definition set_responses (w : World) (rs : Responses) : World :=
  {| logger := logger w; ctx := ctx w; responses := rs |}.

Definition set_logger (w : World) (lg : Logger) : World :=
  {| logger := lg; ctx := ctx w; responses := responses w |}.

Definition watch_step (s : System) : Outcome System :=
  let w := world s in
  match watcher s with
  | Receiving => Blocked
  | AtLock event =>
      rs <-! Mutex_Lock (responses w) ;;
      Return {| world := set_responses w rs; watcher := AtRead event;
                handlers := handlers s |}
  | AtRead event =>
      Return {| world := w;
                watcher := AtUnlock (map_index (ResponseMap (responses w))
                                               (network.LF_RequestID event));
                handlers := handlers s |}
  | AtUnlock resp =>
      rs <-! Mutex_Unlock (responses w) ;;
      Return {| world := set_responses w rs; watcher := AtRun resp;
                handlers := handlers s |}
  | AtRun r =>
      let lg := Logger_log LevelInfo "initial response body length: " (logger w) in
      let '(a, ctx') := Session_Run (RequestID r) (ctx w) in
      match a with
      | RunError e =>
          Return {| world := {| logger := lg; ctx := ctx'; responses := responses w |};
                    watcher := Receiving; handlers := handlers s |}
      | DoError e =>
          Return {| world := {| logger := Logger_log LevelError "failed to get response body: " lg;
                                ctx := ctx'; responses := responses w |};
                    watcher := Receiving; handlers := handlers s |}
      | DoBody body =>
          Return {| world := {| logger := lg; ctx := ctx'; responses := responses w |};
                    watcher := AtLock' (with_Body r body); handlers := handlers s |}
      end
  | AtLock' r =>
      rs <-! Mutex_Lock (responses w) ;;
      Return {| world := set_responses w rs; watcher := AtAssign r;
                handlers := handlers s |}
  | AtAssign r =>
      m <-! map_assign (ResponseMap (responses w)) (RequestID r) r ;;
      Return {| world := set_responses w {| mu := mu (responses w); ResponseMap := m |};
                watcher := AtUnlock'; handlers := handlers s |}
  | AtUnlock' =>
      rs <-! Mutex_Unlock (responses w) ;;
      Return {| world := set_responses w rs; watcher := Receiving;
                handlers := handlers s |}
  end.

(** The next statement of a handler goroutine: the place it goes to, and the
    world and the loop as the statement leaves them.  The send on the channel
    goes through when the loop is at its receive; the loop then logs and goes
    on to its [Lock]. *)
Definition handler_step (h : Handler) (w : World) (wt : Watcher)
  : Outcome (Handler * World * Watcher) :=
  match h with
  | RespLog ev =>
      Return (RespAdd ev,
              set_logger w (Logger_log LevelInfo "EventResponseReceived:" (logger w)), wt)
  | RespAdd ev =>
      match network.RR_Response ev with
      | None => Panic "invalid memory address or nil pointer dereference"
      | Some rsp =>
          Return (AddTest {| RequestID := network.RR_RequestID ev;
                             Type_ := "response";
                             URL := network.Response_URL rsp;
                             Content := PtrEventResponseReceived (Some ev);
                             Body := [] |}, w, wt)
      end
  | AddTest response =>
      match ResponseMap (responses w) with
      | None => Return (AddMake response, w, wt)
      | Some _ => Return (AddStore response, w, wt)
      end
  | AddMake response =>
      Return (AddStore response,
              set_responses w {| mu := mu (responses w); ResponseMap := Some ∅ |}, wt)
  | AddStore response =>
      m <-! map_assign (ResponseMap (responses w)) (RequestID response) response ;;
      Return (Returned,
              set_responses w {| mu := mu (responses w); ResponseMap := m |}, wt)
  | FinLog ev =>
      Return (FinSend ev,
              set_logger w (Logger_log LevelInfo "EventLoadingFinished:" (logger w)), wt)
  | FinSend ev =>
      match wt with
      | Receiving =>
          Return (Returned,
                  set_logger w (Logger_log LevelInfo "EventLoadingFinished, getting body:"
                                           (logger w)),
                  AtLock ev)
      | _ => Blocked
      end
  | Returned => Blocked
  end.

Definition step (st : Step) (s : System) : Outcome System :=
  match st with
  | ResponseReceived ev =>
      Return {| world := world s; watcher := watcher s;
                handlers := handlers s ++ [RespLog ev] |}
  | LoadingFinished ev =>
      Return {| world := world s; watcher := watcher s;
                handlers := handlers s ++ [FinLog ev] |}
  | Handle i =>
      match handlers s !! i with
      | None => Blocked
      | Some h =>
          res <-! handler_step h (world s) (watcher s) ;;
          Return {| world := res.1.2; watcher := res.2;
                    handlers := <[i := res.1.1]> (handlers s) |}
      end
  | Watch => watch_step s
  end.

Fixpoint run (schedule : list Step) (s : System) : Outcome System :=
  match schedule with
  | [] => Return s
  | st :: schedule' => s' <-! step st s ;; run schedule' s'
  end.

(** The program as [main] starts it: nothing logged, no call made, the zero
    [Responses], the loop waiting, no handler started. *)
Definition start (browser : nat -> network.RequestID -> Answer) : System :=
  {| world := {| logger := []; ctx := {| answers := browser; calls := [] |};
                 responses := zero_Responses |};
     watcher := Receiving;
     handlers := [] |}.

(** The loop run on its own up to its next receive. *)
Fixpoint watch_until_receive (fuel : nat) (s : System) : Outcome System :=
  match fuel with
  | O => Return s
  | S fuel' =>
      match watcher s with
      | Receiving => Return s
      | _ => s' <-! watch_step s ;; watch_until_receive fuel' s'
      end
  end.

(** A handler goroutine run on its own to its end. *)
Fixpoint handle_to_end (fuel : nat) (i : nat) (s : System) : Outcome System :=
  match fuel with
  | O => Return s
  | S fuel' =>
      match handlers s !! i with
      | Some Returned | None => Return s
      | Some _ => s' <-! step (Handle i) s ;; handle_to_end fuel' i s'
      end
  end.

(** ** The rest of [ListenToEvents] *)

(** The [*network.EventRequestWillBeSent] case of [ListenToEvents], on the
    logger and the [Requests] it is given. *)
Definition on_EventRequestWillBeSent (ev : network.EventRequestWillBeSent)
    (lg : Logger) (requests : Requests) : Outcome (Logger * Requests) :=
  let lg := Logger_log LevelInfo "EventRequestWillBeSent: " lg in
  match network.RWBS_Request ev with
  | None => Panic "invalid memory address or nil pointer dereference"
  | Some req =>
      Return (lg,
              Requests_Add {| RequestID := network.RWBS_RequestID ev;
                              Type_ := "request";
                              URL := network.Request_URL req;
                              Content := PtrEventRequestWillBeSent (Some ev);
                              Body := [] |} requests)
  end.

(** The handlers of a run of request events, one goroutine after the other. *)
Fixpoint on_requests (evs : list network.EventRequestWillBeSent)
    (lg : Logger) (requests : Requests) : Outcome (Logger * Requests) :=
  match evs with
  | [] => Return (lg, requests)
  | ev :: evs' =>
      st <-! on_EventRequestWillBeSent ev lg requests ;;
      on_requests evs' st.1 st.2
  end.

(** ** config *)

Module config.

Record DBConfig := {
  Host : string;
  Port : string;
  User : string;
  Password : string;
  DBName : string
}.

(** The process environment [os.LookupEnv] reads: the variables that are
    set, each with its value. *)
Abbreviation Environ := (gmap string string).

(** [func getEnv(key, defaultValue string) string] *)
Definition getEnv (env : Environ) (key defaultValue : string) : string :=
  match env !! key with
  | Some value => value
  | None => defaultValue
  end.

(** [func (db *DBConfig) Load() DBConfig]: the receiver is filled in and a
    copy of it returned; both are the value given here. *)
Definition Load (env : Environ) (db : DBConfig) : DBConfig :=
  {| Host := getEnv env "DB_HOST" "localhost";
     Port := getEnv env "DB_PORT" "5432";
     User := getEnv env "DB_USER" "myuser";
     Password := getEnv env "DB_PASSWORD" "mypassword";
     DBName := getEnv env "DB_NAME" "events" |}.

End config.

(** ** main.go: the two loops that write the captured events *)

Section Main.

Variable json_Marshal : any -> Result string.

(** What [main] does with the error of an insert: it logs it and goes on. *)
Definition log_insert_error (msg : string) (err : error) (lg : Logger) : Logger :=
  match err with
  | Some _ => Logger_log LevelError msg lg
  | None => lg
  end.

(** [for _, r := range requests { r.SetBody(...); err = database.InsertIntoDB(...) ... }];
    [r] is the loop's copy of the element. *)
Fixpoint main_insert_requests (requests : Requests) (lg : Logger) (db : option DB)
    (testID : string) : Outcome (Logger * option DB) :=
  match requests with
  | [] => Return (lg, db)
  | r :: rest =>
      r <-! SetBody r ;;
      res <-! InsertIntoDB json_Marshal lg db testID r ;;
      let '(err, lg, db) := res in
      main_insert_requests rest
        (log_insert_error "failed to insert into database" err lg) db testID
  end.

(** [for _, r := range responses.ResponseMap { err = database.InsertIntoDB(...) ... }],
    on the Responses in the order the [range] meets them. *)
Fixpoint main_insert_responses (in_range_order : list Response) (lg : Logger)
    (db : option DB) (testID : string) : Outcome (Logger * option DB) :=
  match in_range_order with
  | [] => Return (lg, db)
  | r :: rest =>
      res <-! InsertIntoDB json_Marshal lg db testID r ;;
      let '(err, lg, db) := res in
      main_insert_responses rest
        (log_insert_error "failed to insert into database: " err lg) db testID
  end.

End Main.


(** ** What the statements below speak of *)

(** The entry of the response map under a key, if the map has one. *)
Definition entry (rs : Responses) (id : network.RequestID) : option Response :=
  match ResponseMap rs with
  | Some g => g !! id
  | None => None
  end.

(** The entries of the response map under a key, as [range] would meet them. *)
Definition entries_for (rs : Responses) (id : network.RequestID)
  : list (network.RequestID * Response) :=
  match ResponseMap rs with
  | Some g => filter (fun kv => kv.1 = id) (map_to_list g)
  | None => []
  end.

(** A sequence of [Add] calls, first to last. *)
Definition Add_all (l : list Response) (rs : Responses) : Responses :=
  foldl (fun rs response => Responses_Add response rs) rs l.

(** The response of the last call of the sequence for a requestID. *)
Definition last_added (id : network.RequestID) (l : list Response) : option Response :=
  last (filter (fun response => RequestID response = id) l).

(** The answer the session gives to the next call, for a requestID. *)
Definition next_answer (w : World) (id : network.RequestID) : Answer :=
  answers (ctx w) (length (calls (ctx w))) id.

(** The body retrieval fails: [Run] or the call inside it returns an error. *)
Definition failed (a : Answer) : Prop :=
  match a with
  | DoBody _ => False
  | _ => True
  end.

(** The bare host the spec speaks of, port stripped: [URL.Hostname()] of
    [net/url], which drops a valid port and the brackets of an IP literal. *)
Definition bare_hostname (hostPort : string) : string :=
  let host :=
    match strings.LastIndex hostPort ":" with
    | Some colon =>
        if url.validOptionalPort (strings.from colon hostPort)
        then strings.upto colon hostPort
        else hostPort
    | None => hostPort
    end in
  if strings.HasPrefix host "[" && strings.HasSuffix host "]"
  then strings.upto (String.length host - 2) (strings.from 1 host)
  else host.

(** A body is accounted for when it is empty or is what a call returned for
    the requestID of the response that holds it. *)
Definition accounted (s : Session) (r : Response) : Prop :=
  Body r = [] \/ (RequestID r, DoBody (Body r)) ∈ calls s.

(** The Response the loop holds in its local variable, if it holds one. *)
Definition held (wt : Watcher) : option Response :=
  match wt with
  | AtUnlock r | AtRun r | AtLock' r | AtAssign r => Some r
  | _ => None
  end.

(** The Response a handler goroutine carries into [Add], if it is there. *)
Definition carried (h : Handler) : option Response :=
  match h with
  | AddTest r | AddMake r | AddStore r => Some r
  | _ => None
  end.

(** The invariant of the interleaved goroutines: every Response in the map
    sits under its own requestID with a body that is accounted for, so is
    the body of the Response the loop holds, and the Responses the handlers
    carry have empty bodies. *)
Definition bodies_accounted (s : System) : Prop :=
  (forall k r, entry (responses (world s)) k = Some r ->
               RequestID r = k /\ accounted (ctx (world s)) r) /\
  (forall r, held (watcher s) = Some r -> accounted (ctx (world s)) r) /\
  Forall (fun h => forall r, carried h = Some r -> Body r = []) (handlers s).

(** The Response the handler of [ListenToEvents] builds from an event. *)
Definition Response_of (ev : network.EventResponseReceived) (rsp : network.Response)
  : Response :=
  {| RequestID := network.RR_RequestID ev; Type_ := "response";
     URL := network.Response_URL rsp; Content := PtrEventResponseReceived (Some ev);
     Body := [] |}.

(** The steps of one handler goroutine, the [i]-th started, from its first
    statement to its last: the log record and the call, then, in [Add], the
    test and the store when the map is allocated; the log record and the
    send for a load that finished. *)
Definition handle_response_allocated (i : nat) : list Step :=
  [Handle i; Handle i; Handle i; Handle i].

Definition handle_finished (i : nat) : list Step := [Handle i; Handle i].

(** Two halves of one schedule, for a program with no handler started yet.
    First the notification is sent and taken, the map is read under the lock
    and the lock released, and a response for the same requestID is added;
    then the body arrives and is written back, under the lock again, into the
    Response read before. *)
Definition schedule_stale (id : network.RequestID) (ev : network.EventResponseReceived)
  : list Step * list Step :=
  (LoadingFinished {| network.LF_RequestID := id |} :: handle_finished 0
     ++ [Watch; Watch; Watch]
     ++ ResponseReceived ev :: handle_response_allocated 1,
   [Watch; Watch; Watch; Watch]).

(** The notification is sent and taken and the loop takes the lock. *)
Definition schedule_lock_taken (id : network.RequestID) : list Step :=
  LoadingFinished {| network.LF_RequestID := id |} :: handle_finished 0 ++ [Watch].

(** No handler goroutine is about to replace the map by a fresh one. *)
Definition no_pending_make (s : System) : Prop :=
  Forall (fun h => forall r, h <> AddMake r) (handlers s).

(** Two handlers on the nil map: both log, enter [Add] and find the map nil;
    the first makes a map and stores into it; the second makes a map and
    stores into that one. *)
Definition schedule_two_makes : list Step :=
  [Handle 0; Handle 0; Handle 0; Handle 1; Handle 1; Handle 1;
   Handle 0; Handle 0; Handle 1; Handle 1].

(** ** Sample data *)

(** A request event with the post-data entries "ab" and "cd". *)
Definition request_ab_cd : Request :=
  {| RequestID := "1000.1"; Type_ := "request"; URL := "https://example.com/form";
     Content := PtrEventRequestWillBeSent (Some
       {| network.RWBS_RequestID := "1000.1";
          network.RWBS_Request := Some
            {| network.Request_URL := "https://example.com/form";
               network.PostDataEntries :=
                 [Some {| network.Bytes := "ab" |}; Some {| network.Bytes := "cd" |}] |} |});
     Body := [] |}.

(** A struct of kind "response" with no payload and the body "a". *)
Definition response_as_request : Request :=
  {| RequestID := "1000.2"; Type_ := "response"; URL := "https://example.com/";
     Content := nil_interface; Body := [x61] |}.

Definition response_a1 : Response :=
  {| RequestID := "a"; Type_ := "response"; URL := "https://example.com/1";
     Content := nil_interface; Body := [] |}.

Definition response_b : Response :=
  {| RequestID := "b"; Type_ := "response"; URL := "https://example.com/b";
     Content := nil_interface; Body := [] |}.

Definition response_a2 : Response :=
  {| RequestID := "a"; Type_ := "response"; URL := "https://example.com/2";
     Content := nil_interface; Body := [] |}.

(** A session that has no body for anybody. *)
Definition no_body_session : Session :=
  {| answers := fun _ _ => DoError (external_error "No resource with given identifier found");
     calls := [] |}.

(** A session that has a body for whatever it is asked. *)
Definition body_session (body : list byte) : Session :=
  {| answers := fun _ _ => DoBody body; calls := [] |}.

(** A world whose response map holds [response_a1], with the lock free. *)
Definition world_with_a1 (s : Session) : World :=
  {| logger := []; ctx := s; responses := Responses_Add response_a1 zero_Responses |}.

(** Two response events for the requestID "a". *)
Definition event_a : network.EventResponseReceived :=
  {| network.RR_RequestID := "a";
     network.RR_Response := Some {| network.Response_URL := "https://example.com/1" |} |}.

Definition event_a' : network.EventResponseReceived :=
  {| network.RR_RequestID := "a";
     network.RR_Response := Some {| network.Response_URL := "https://example.com/2" |} |}.

(** A response event for the requestID "b". *)
Definition event_b : network.EventResponseReceived :=
  {| network.RR_RequestID := "b";
     network.RR_Response := Some {| network.Response_URL := "https://example.com/b" |} |}.

(** From the start of [main]: a response is received and its handler runs to
    its end (log, call, test, make, store), its load finishes and the
    notification is sent, and the loop runs to its next receive. *)
Definition schedule_fetch_a : list Step :=
  [ResponseReceived event_a; Handle 0; Handle 0; Handle 0; Handle 0; Handle 0;
   LoadingFinished {| network.LF_RequestID := "a" |}; Handle 1; Handle 1;
   Watch; Watch; Watch; Watch; Watch; Watch; Watch].

(** After that, a second response for the same requestID is received and
    its handler runs to its end (log, call, test, store). *)
Definition schedule_fetch_a_then_response : list Step :=
  schedule_fetch_a ++ [ResponseReceived event_a'; Handle 2; Handle 2; Handle 2; Handle 2].

(** With the map allocated and no handler started: the load of "a" finishes,
    the notification is sent, and the loop runs to its next receive. *)
Definition schedule_finish_a : list Step :=
  [LoadingFinished {| network.LF_RequestID := "a" |}; Handle 0; Handle 0;
   Watch; Watch; Watch; Watch; Watch; Watch; Watch].

(** A payload serializer and a database that accept everything. *)
Definition marshal_braces : any -> Result string := fun _ => Ok "{}".

Definition accepting_DB : DB := {| events := []; refuses := fun _ _ => None |}.

(** A serializer that fails on every payload. *)
Definition marshal_fails : any -> Result string :=
  fun _ => Err (external_error "json: unsupported type").

Definition event_with_URL (u : string) : Event :=
  {| RequestID := "1000.3"; Type_ := "response"; URL := u;
     Content := nil_interface; Body := [] |}.

(** The Request the handler of [ListenToEvents] builds from an event. *)
Definition Request_of (ev : network.EventRequestWillBeSent) (req : network.Request)
  : Request :=
  {| RequestID := network.RWBS_RequestID ev; Type_ := "request";
     URL := network.Request_URL req; Content := PtrEventRequestWillBeSent (Some ev);
     Body := [] |}.

(** A payload [SetBody] can read: a request event whose Request and whose
    post-data entries are all there. *)
Definition readable_payload (c : any) : Prop :=
  exists ev req entries,
    c = PtrEventRequestWillBeSent (Some ev) /\
    network.RWBS_Request ev = Some req /\
    network.PostDataEntries req = map Some entries.

(** Two request events, with their Requests. *)
Definition net_request_1 : network.Request :=
  {| network.Request_URL := "https://example.com/"; network.PostDataEntries := [] |}.

Definition net_request_2 : network.Request :=
  {| network.Request_URL := "https://example.com/x";
     network.PostDataEntries := [Some {| network.Bytes := "q=1" |}] |}.

Definition request_event_1 : network.EventRequestWillBeSent :=
  {| network.RWBS_RequestID := "1"; network.RWBS_Request := Some net_request_1 |}.

Definition request_event_2 : network.EventRequestWillBeSent :=
  {| network.RWBS_RequestID := "2"; network.RWBS_Request := Some net_request_2 |}.

(** A struct of kind "request" that carries a response event. *)
Definition request_with_response_payload : Request :=
  {| RequestID := "a"; Type_ := "request"; URL := "https://example.com/1";
     Content := PtrEventResponseReceived (Some event_a); Body := [] |}.

(** Every Response of the map sits under its own requestID. *)
Definition keyed_by_RequestID (rs : Responses) : Prop :=
  forall k r, entry rs k = Some r -> RequestID r = k.

(** The places of the loop between a [Lock] and its [Unlock]. *)
Definition in_critical_section (wt : Watcher) : bool :=
  match wt with
  | AtRead _ | AtUnlock _ | AtAssign _ | AtUnlock' => true
  | _ => false
  end.

(** The mutex is held exactly while the loop is in a critical section. *)
Definition lock_follows_loop (s : System) : Prop :=
  mu (responses (world s)) = in_critical_section (watcher s).

(** The row an event gives when its URL parses: the hostname is what comes
    before the first colon of the parsed host, the payload is the serialized
    payload, or empty when serializing fails. *)
Definition written_row (json_Marshal : any -> Result string) (testID : string)
    (event : Event) : option Row :=
  match url.Parse (URL event) with
  | Ok u =>
      Some {| test_id := testID; type := Type_ event;
              domain := match strings.Index (url.Host u) ":" with
                        | Some i => strings.upto i (url.Host u)
                        | None => url.Host u
                        end;
              payload := match json_Marshal (Content event) with
                         | Ok text => text
                         | Err _ => ""
                         end;
              body := Body event |}
  | Err _ => None
  end.

(** * Properties *)

Ltac go_cbn :=
  cbn [run step bindO watch_until_receive handle_to_end watch_step handler_step
       watcher world handlers responses logger ctx
       mu ResponseMap set_responses set_logger answers calls fst snd
       Mutex_Lock Mutex_Unlock Session_Run map_assign RequestID with_Body
       lookup list_lookup insert list_insert app
       handle_finished handle_response_allocated network.LF_RequestID].

Tactic Notation "go_cbn" "in" hyp(H) :=
  cbn [run step bindO watch_until_receive handle_to_end watch_step handler_step
       watcher world handlers responses logger ctx
       mu ResponseMap set_responses set_logger answers calls fst snd
       Mutex_Lock Mutex_Unlock Session_Run map_assign RequestID with_Body
       lookup list_lookup insert list_insert app
       handle_finished handle_response_allocated network.LF_RequestID] in H.

(** ** [SetBody] *)

Lemma list_byte_of_string_app (s t : string) :
  list_byte_of_string (s +:+ t) = list_byte_of_string s ++ list_byte_of_string t.
Proof.
  unfold list_byte_of_string.
  induction s as [|c s IH]; simpl; [reflexivity|]. now f_equal.
Qed.

(** The loop over entries that are all there appends their pieces, in order,
    to what it starts from. *)
Lemma range_postDataEntries_all (entries : list network.PostDataEntry) (acc : string) :
  exists postData,
    range_postDataEntries (map Some entries) acc = Return postData /\
    list_byte_of_string postData
    = list_byte_of_string acc
      ++ concat (map (fun e => list_byte_of_string (network.Bytes e)) entries).
Proof.
  revert acc. induction entries as [|e entries IH]; intros acc; simpl.
  - exists acc. split; [reflexivity|]. now rewrite app_nil_r.
  - destruct (IH (acc +:+ network.Bytes e)) as (p & Hrun & Hbytes).
    exists p. split; [exact Hrun|].
    rewrite Hbytes, list_byte_of_string_app. now rewrite <- app_assoc.
Qed.

(** C4: on a Request of kind "request" whose payload is a request event with
    a list of post-data entries, [SetBody] returns the Request with its body
    set to the concatenation of the entries' byte pieces, in order, and its
    other fields as they were. *)
Theorem SetBody_concatenates_post_data (r : Request)
    (ev : network.EventRequestWillBeSent) (req : network.Request)
    (entries : list network.PostDataEntry) :
  Type_ r = "request" ->
  Content r = PtrEventRequestWillBeSent (Some ev) ->
  network.RWBS_Request ev = Some req ->
  network.PostDataEntries req = map Some entries ->
  exists r',
    SetBody r = Return r' /\
    Body r' = concat (map (fun e => list_byte_of_string (network.Bytes e)) entries) /\
    RequestID r' = RequestID r /\ Type_ r' = Type_ r /\ URL r' = URL r /\
    Content r' = Content r.
Proof.
  intros Hty Hc Hreq Hent. unfold SetBody.
  rewrite Hty, Hc, Hreq, Hent. simpl.
  destruct (range_postDataEntries_all entries "") as (p & Hrun & Hbytes).
  rewrite Hrun. simpl. eexists. split; [reflexivity|].
  cbn [with_Body Body RequestID Type_ URL Content]. rewrite Hbytes.
  repeat split; try reflexivity; assumption.
Qed.

(** The spec's example: post-data entries "ab", "cd" give the body "abcd". *)
Lemma SetBody_concatenates_post_data_witness :
  exists r',
    SetBody request_ab_cd = Return r' /\
    Body r' = [x61; x62; x63; x64] /\
    RequestID r' = "1000.1" /\ Type_ r' = "request".
Proof.
  destruct (SetBody_concatenates_post_data request_ab_cd _ _
              [ {| network.Bytes := "ab" |}; {| network.Bytes := "cd" |} ]
              eq_refl eq_refl eq_refl eq_refl)
    as (r' & Hret & Hbody & Hid & Hty & _).
  exists r'. split; [exact Hret|]. split; [exact Hbody|]. split; [exact Hid|exact Hty].
Defined.

(** C10: on a Request whose [Type] is not "request", [SetBody] returns at
    once: the Request comes back as it was, whatever its payload is. *)
Theorem SetBody_other_kind_noop (r : Request) :
  Type_ r <> "request" -> SetBody r = Return r.
Proof.
  intros Hne. unfold SetBody.
  destruct (String.eqb_spec (Type_ r) "request") as [Heq|_]; [contradiction|reflexivity].
Qed.

Lemma SetBody_other_kind_noop_witness :
  SetBody response_as_request = Return response_as_request /\
  SetBody (with_Body request_ab_cd [x61])
  <> Return (with_Body request_ab_cd [x61]).
Proof.
  split.
  - apply SetBody_other_kind_noop. discriminate.
  - discriminate.
Defined.

(** ** [Responses.Add] *)

Lemma entry_Add (response : Response) (rs : Responses) (id : network.RequestID) :
  entry (Responses_Add response rs) id
  = if decide (RequestID response = id) then Some response else entry rs id.
Proof.
  unfold entry, Responses_Add; simpl.
  rewrite lookup_insert. destruct (ResponseMap rs); case_decide; reflexivity.
Qed.

Lemma entry_Add_all (l : list Response) (rs : Responses) (id : network.RequestID) :
  entry (Add_all l rs) id
  = match last_added id l with
    | Some response => Some response
    | None => entry rs id
    end.
Proof.
  unfold Add_all, last_added. revert rs.
  induction l as [|response l IH] using rev_ind; intros rs; [reflexivity|].
  rewrite foldl_app, filter_app. simpl. rewrite entry_Add.
  rewrite filter_cons, filter_nil. case_decide as Hid.
  - now rewrite last_snoc.
  - rewrite app_nil_r. apply IH.
Qed.

Lemma filter_key_absent (kvs : list (network.RequestID * Response))
    (id : network.RequestID) :
  id ∉ kvs.*1 -> filter (fun kv => kv.1 = id) kvs = [].
Proof.
  induction kvs as [|[k v] kvs IH]; intros Hid; [reflexivity|].
  rewrite fmap_cons in Hid. apply not_elem_of_cons in Hid as [Hne Hid].
  rewrite filter_cons. simpl in *. rewrite decide_False by congruence. now apply IH.
Qed.

(** A key of a map heads exactly one of its entries. *)
Lemma map_one_entry_per_key (g : gmap network.RequestID Response)
    (id : network.RequestID) (response : Response) :
  g !! id = Some response ->
  filter (fun kv => kv.1 = id) (map_to_list g) = [(id, response)].
Proof.
  intros Hl.
  assert (Hnd : NoDup (map_to_list g).*1) by apply NoDup_fst_map_to_list.
  assert (Hin : (id, response) ∈ map_to_list g) by now apply elem_of_map_to_list.
  revert Hnd Hin. generalize (map_to_list g) as kvs.
  induction kvs as [|[k v] kvs IH]; intros Hnd Hin.
  - now apply elem_of_nil in Hin.
  - rewrite fmap_cons in Hnd. apply NoDup_cons in Hnd as [Hk Hnd].
    rewrite filter_cons. simpl. apply elem_of_cons in Hin as [Heq|Hin].
    + inversion Heq; subst k v. rewrite decide_True by reflexivity. f_equal.
      now apply filter_key_absent.
    + rewrite decide_False; [now apply IH|].
      intros ->. apply Hk. apply list_elem_of_fmap. now exists (id, response).
Qed.

(** C6: after any sequence of [Add] calls, the entry under a requestID is the
    response added last for it (the entry the map had before, if none was),
    there is exactly one entry for a requestID that was added, and adding the
    same response twice gives the map that adding it once gives. *)
Theorem Add_last_write_wins (l : list Response) (rs : Responses)
    (id : network.RequestID) (response : Response) :
  entry (Add_all l rs) id
  = match last_added id l with
    | Some latest => Some latest
    | None => entry rs id
    end
  /\ (forall latest, last_added id l = Some latest ->
        entries_for (Add_all l rs) id = [(id, latest)])
  /\ Responses_Add response (Responses_Add response rs) = Responses_Add response rs.
Proof.
  split; [apply entry_Add_all|]. split.
  - intros latest Hlast.
    pose proof (entry_Add_all l rs id) as He. rewrite Hlast in He.
    unfold entry in He. unfold entries_for.
    destruct (ResponseMap (Add_all l rs)) as [g|]; [|discriminate].
    now apply map_one_entry_per_key.
  - unfold Responses_Add; simpl. now rewrite insert_insert_eq.
Qed.

Lemma Add_last_write_wins_witness :
  entry (Add_all [response_a1; response_b; response_a2] zero_Responses) "a"
  = Some response_a2 /\
  entries_for (Add_all [response_a1; response_b; response_a2] zero_Responses) "a"
  = [("a", response_a2)].
Proof.
  destruct (Add_last_write_wins [response_a1; response_b; response_a2]
              zero_Responses "a" response_a2) as (Hentry & Hone & _).
  split; [exact Hentry|]. apply Hone. reflexivity.
Defined.

(** ** [GetResponseBody] and the loop of [WatchEventFinishers] *)

Lemma GetResponseBody_failed (r : Response) (w : World) :
  failed (next_answer w (RequestID r)) ->
  exists err w',
    GetResponseBody r w = Return (Some err, r, w') /\
    responses w' = responses w /\
    calls (ctx w') = calls (ctx w) ++ [(RequestID r, next_answer w (RequestID r))].
Proof.
  unfold failed, next_answer, GetResponseBody, Session_Run. intros Hfail.
  destruct (answers (ctx w) (length (calls (ctx w))) (RequestID r)) as [e|e|body];
    [| |contradiction]; eexists _, _; (split; [reflexivity|]); now split.
Qed.

(** C7: when the body retrieval fails, [GetResponseBody] returns an error,
    leaves the response map and the caller's Response as they were, and has
    called the session once; the loop of [WatchEventFinishers] drops the
    error and goes on to its next notification with the map as it was:
    nobody tries again. *)
Theorem GetResponseBody_failure (r : Response) (w : World)
    (event : network.EventLoadingFinished) :
  (failed (next_answer w (RequestID r)) ->
   exists err w',
     GetResponseBody r w = Return (Some err, r, w') /\
     responses w' = responses w /\
     calls (ctx w') = calls (ctx w) ++ [(RequestID r, next_answer w (RequestID r))])
  /\
  (let resp := map_index (ResponseMap (responses w)) (network.LF_RequestID event) in
   mu (responses w) = false ->
   failed (next_answer w (RequestID resp)) ->
   exists w',
     watch_event event w = Return w' /\
     responses w' = responses w /\
     calls (ctx w') = calls (ctx w) ++ [(RequestID resp, next_answer w (RequestID resp))]).
Proof.
  split; [apply GetResponseBody_failed|].
  intros resp Hmu Hfail. unfold watch_event, Mutex_Lock. rewrite Hmu. simpl.
  fold resp.
  set (w1 := {| logger := _; ctx := ctx w; responses := _ |}).
  destruct (GetResponseBody_failed resp w1 Hfail) as (err & w' & Hret & Hmap & Hcalls).
  rewrite Hret. simpl. exists w'. split; [reflexivity|]. split.
  - rewrite Hmap. subst w1. simpl. destruct (responses w) as [m g]. simpl in *. now subst m.
  - exact Hcalls.
Qed.

Lemma GetResponseBody_failure_witness :
  (exists err w',
     GetResponseBody response_a1 (world_with_a1 no_body_session)
     = Return (Some err, response_a1, w') /\
     responses w' = responses (world_with_a1 no_body_session) /\
     length (calls (ctx w')) = 1) /\
  (exists w',
     watch_event {| network.LF_RequestID := "a" |} (world_with_a1 no_body_session)
     = Return w' /\
     entry (responses w') "a" = Some response_a1 /\
     length (calls (ctx w')) = 1).
Proof.
  destruct (GetResponseBody_failure response_a1 (world_with_a1 no_body_session)
              {| network.LF_RequestID := "a" |}) as [Hcall Hloop].
  split.
  - destruct (Hcall I) as (err & w' & Hret & Hmap & Hcalls).
    exists err, w'. split; [exact Hret|]. split; [exact Hmap|]. now rewrite Hcalls.
  - destruct (Hloop eq_refl I) as (w' & Hret & Hmap & Hcalls).
    exists w'. split; [exact Hret|]. split; [now rewrite Hmap|]. now rewrite Hcalls.
Defined.

(** C9, as the code has it: a notification whose requestID has no entry in
    an allocated response map makes the loop read the zero Response, whose
    requestID is empty; the session is then asked for the empty requestID,
    and a body it returns is stored under the empty key.  The notification's
    own requestID, if it is not empty, still has no entry. *)
Theorem watch_event_missing_entry (event : network.EventLoadingFinished)
    (w : World) (g : gmap network.RequestID Response) (body : list byte) :
  mu (responses w) = false ->
  ResponseMap (responses w) = Some g ->
  g !! network.LF_RequestID event = None ->
  next_answer w "" = DoBody body ->
  map_index (ResponseMap (responses w)) (network.LF_RequestID event) = zero_Event /\
  RequestID zero_Event = "" /\
  exists w',
    watch_event event w = Return w' /\
    ResponseMap (responses w') = Some (<["" := with_Body zero_Event body]> g) /\
    calls (ctx w') = calls (ctx w) ++ [("", DoBody body)] /\
    (network.LF_RequestID event <> "" ->
     entry (responses w') (network.LF_RequestID event) = None) /\
    (exists stored, entry (responses w') "" = Some stored /\
                    Body stored = body /\ RequestID stored = "").
Proof.
  intros Hmu Hmap Hmiss Hans.
  assert (Hzero : map_index (ResponseMap (responses w)) (network.LF_RequestID event)
                  = zero_Event).
  { unfold map_index. now rewrite Hmap, Hmiss. }
  split; [exact Hzero|]. split; [reflexivity|].
  unfold watch_event, Mutex_Lock. rewrite Hmu. simpl. rewrite Hmap in *. rewrite Hzero.
  unfold GetResponseBody, Session_Run. simpl.
  unfold next_answer in Hans. rewrite Hans. simpl.
  eexists. split; [reflexivity|]. simpl. split; [reflexivity|]. split; [reflexivity|].
  split.
  - intros Hne. unfold entry. simpl. rewrite lookup_insert_ne by congruence. exact Hmiss.
  - eexists. unfold entry. simpl. split; [apply lookup_insert_eq|]. split; reflexivity.
Qed.

Lemma watch_event_missing_entry_witness :
  exists w',
    watch_event {| network.LF_RequestID := "b" |} (world_with_a1 (body_session [x68; x69]))
    = Return w' /\
    entry (responses w') "" = Some (with_Body zero_Event [x68; x69]) /\
    entry (responses w') "b" = None /\
    entry (responses w') "a" = Some response_a1 /\
    Body <$> entry (responses w') "" = Some [x68; x69].
Proof.
  destruct (watch_event_missing_entry {| network.LF_RequestID := "b" |}
              (world_with_a1 (body_session [x68; x69])) {["a" := response_a1]}
              [x68; x69])
    as (_ & _ & w' & Hret & Hmap & _ & Hother & stored & Hstored & Hbody & _);
    [reflexivity | reflexivity | vm_compute; reflexivity | reflexivity |].
  exists w'. split; [exact Hret|].
  split; [|split; [apply Hother; discriminate|split]].
  - unfold entry; rewrite Hmap; vm_compute; reflexivity.
  - unfold entry; rewrite Hmap; vm_compute; reflexivity.
  - rewrite Hstored. cbn. now rewrite Hbody.
Defined.

(** C9 as stated does not hold of the map [main] starts with: it has no
    entry for any requestID, and the store of a fetched body into it panics.
    Nor does it hold of a notification whose own requestID is empty, whose
    body lands under that very requestID. *)
Lemma watch_event_missing_entry_counterexample :
  ~ (forall (event : network.EventLoadingFinished) (w : World) (body : list byte),
       mu (responses w) = false ->
       entry (responses w) (network.LF_RequestID event) = None ->
       next_answer w "" = DoBody body ->
       exists w',
         watch_event event w = Return w' /\
         entry (responses w') "" = Some (with_Body zero_Event body) /\
         entry (responses w') (network.LF_RequestID event) = None).
Proof.
  intros Hclaim.
  destruct (Hclaim {| network.LF_RequestID := "b" |}
              {| logger := []; ctx := body_session [x68; x69]; responses := zero_Responses |}
              [x68; x69] eq_refl eq_refl eq_refl) as (w' & Hret & _).
  discriminate Hret.
Qed.

Example watch_event_nil_map :
  watch_event {| network.LF_RequestID := "b" |}
    {| logger := []; ctx := body_session [x68; x69]; responses := zero_Responses |}
  = Panic "assignment to entry in nil map".
Proof. reflexivity. Qed.

Example watch_event_empty_requestID :
  exists w',
    watch_event {| network.LF_RequestID := "" |} (world_with_a1 (body_session [x68; x69]))
    = Return w' /\
    entry (responses w') "" = Some (with_Body zero_Event [x68; x69]).
Proof. eexists. split; reflexivity. Qed.

(** ** [InsertIntoDB] *)

(** [strings.Split] always has a first piece: the index [0] in
    [InsertIntoDB] is in range. *)
Lemma Split_from_nonempty (fuel : nat) (s sep : string) :
  strings.Split_from fuel s sep <> [].
Proof.
  destruct fuel; simpl; [discriminate|].
  destruct (strings.Index s sep); discriminate.
Qed.

Lemma Index_byte_cons (c a : ascii) (s : string) :
  strings.Index (String a s) (String c EmptyString)
  = if ascii_dec c a then Some 0 else option_map S (strings.Index s (String c EmptyString)).
Proof.
  cbn [strings.Index String.prefix]. destruct (ascii_dec c a); [|reflexivity].
  now destruct s.
Qed.

Lemma Index_byte_empty (c : ascii) : strings.Index EmptyString (String c EmptyString) = None.
Proof. reflexivity. Qed.

Lemma upto_cons (i : nat) (a : ascii) (s : string) :
  strings.upto (S i) (String a s) = String a (strings.upto i s).
Proof. reflexivity. Qed.

Lemma upto_0 (s : string) : strings.upto 0 s = EmptyString.
Proof. now destruct s. Qed.

Lemma parse_leading_colon (rest : string) (viaRequest : bool) :
  exists err, url.parse (String ":" rest) viaRequest = Err err.
Proof.
  unfold url.parse.
  destruct (url.stringContainsCTLByte (String ":" rest)); [eexists; reflexivity|].
  destruct viaRequest; eexists; vm_compute; reflexivity.
Qed.

Lemma Parse_leading_colon (rest : string) :
  exists err, url.Parse (String ":" rest) = Err err.
Proof.
  unfold url.Parse, strings.Cut. rewrite Index_byte_cons.
  destruct (ascii_dec "#" ":") as [Heq|_]; [discriminate|].
  destruct (strings.Index rest "#") as [j|]; cbn [option_map].
  - rewrite upto_cons. destruct (parse_leading_colon (strings.upto j rest) false) as (e & ->).
    eexists. reflexivity.
  - destruct (parse_leading_colon rest false) as (e & ->). eexists. reflexivity.
Qed.

Lemma Parse_control_character (rawURL : string) :
  url.stringContainsCTLByte (strings.Cut rawURL "#").1.1 = true ->
  exists err, url.Parse rawURL = Err err.
Proof.
  intros Hctl. unfold url.Parse.
  destruct (strings.Cut rawURL "#") as [[u frag] found]. cbn [fst] in Hctl.
  unfold url.parse. rewrite Hctl. eexists. reflexivity.
Qed.

Lemma InsertIntoDB_parse_fails (json_Marshal : any -> Result string)
    (lg : Logger) (db : option DB) (testID : string) (event : Event)
    (err : GoError) :
  url.Parse (URL event) = Err err ->
  exists lg',
    InsertIntoDB json_Marshal lg db testID event
    = Return (Some (fmt_Errorf "failed to parse URL: " err), lg', db).
Proof.
  intros Hparse. unfold InsertIntoDB.
  destruct (json_Marshal (Content event)); rewrite Hparse; eexists; reflexivity.
Qed.

(** C3, as the code has it: when [url.Parse] rejects the event's URL,
    [InsertIntoDB] returns the parse error wrapped as "failed to parse URL"
    and the database handle comes back untouched: no row is written, whatever
    [json.Marshal] did with the payload.  [url.Parse] rejects every URL that
    begins with a colon, the scheme before it missing, and every URL with an
    ASCII control character before its first [#]. *)
Theorem InsertIntoDB_parse_error (json_Marshal : any -> Result string)
    (lg : Logger) (db : option DB) (testID : string) (event : Event) :
  (forall err,
     url.Parse (URL event) = Err err ->
     exists lg',
       InsertIntoDB json_Marshal lg db testID event
       = Return (Some (fmt_Errorf "failed to parse URL: " err), lg', db)) /\
  (forall rest,
     URL event = String ":" rest ->
     exists err lg',
       url.Parse (URL event) = Err err /\
       InsertIntoDB json_Marshal lg db testID event
       = Return (Some (fmt_Errorf "failed to parse URL: " err), lg', db)) /\
  (url.stringContainsCTLByte (strings.Cut (URL event) "#").1.1 = true ->
   exists err lg',
     url.Parse (URL event) = Err err /\
     InsertIntoDB json_Marshal lg db testID event
     = Return (Some (fmt_Errorf "failed to parse URL: " err), lg', db)).
Proof.
  split; [intros err; apply InsertIntoDB_parse_fails|]. split.
  - intros rest Hurl. destruct (Parse_leading_colon rest) as (err & Hparse).
    rewrite <- Hurl in Hparse. exists err.
    destruct (InsertIntoDB_parse_fails json_Marshal lg db testID event err Hparse)
      as (lg' & Hret).
    now exists lg'.
  - intros Hctl. destruct (Parse_control_character _ Hctl) as (err & Hparse).
    exists err.
    destruct (InsertIntoDB_parse_fails json_Marshal lg db testID event err Hparse)
      as (lg' & Hret).
    now exists lg'.
Qed.

(** The URL "://example.com", whose scheme is missing before the colon, and
    a URL with a tab in its path. *)
Lemma InsertIntoDB_parse_error_witness :
  (exists lg',
     InsertIntoDB marshal_braces [] (Some accepting_DB) "run-1"
       (event_with_URL "://example.com")
     = Return (Some (fmt_Errorf "failed to parse URL: "
                       (url_Error "parse" "://example.com"
                          (errors_New "missing protocol scheme"))),
               lg', Some accepting_DB)) /\
  (exists err lg',
     InsertIntoDB marshal_braces [] (Some accepting_DB) "run-1"
       (event_with_URL "://example.com")
     = Return (Some (fmt_Errorf "failed to parse URL: " err), lg', Some accepting_DB)) /\
  (exists err lg',
     InsertIntoDB marshal_braces [] (Some accepting_DB) "run-1"
       (event_with_URL ("https://example.com/a" +:+ String "009" "b#top"))
     = Return (Some (fmt_Errorf "failed to parse URL: " err), lg', Some accepting_DB)).
Proof.
  split; [|split].
  - apply (proj1 (InsertIntoDB_parse_error marshal_braces [] (Some accepting_DB) "run-1"
                    (event_with_URL "://example.com"))).
    vm_compute. reflexivity.
  - destruct (proj1 (proj2 (InsertIntoDB_parse_error marshal_braces [] (Some accepting_DB)
                              "run-1" (event_with_URL "://example.com")))
                "//example.com" eq_refl) as (err & lg' & _ & Hret).
    now exists err, lg'.
  - destruct (proj2 (proj2 (InsertIntoDB_parse_error marshal_braces [] (Some accepting_DB)
                              "run-1"
                              (event_with_URL ("https://example.com/a"
                                               +:+ String "009" "b#top")))))
      as (err & lg' & _ & Hret); [vm_compute; reflexivity|].
    now exists err, lg'.
Defined.

(** C3 as stated does not hold of a URL that has no scheme at all:
    "example.com/path" parses, as a path, and its row is written, with an
    empty hostname. *)
Lemma InsertIntoDB_parse_error_counterexample :
  (exists u, url.Parse "example.com/path" = Ok u /\ url.Scheme u = "" /\ url.Host u = "") /\
  exists lg',
    InsertIntoDB marshal_braces [] (Some accepting_DB) "run-1"
      (event_with_URL "example.com/path")
    = Return (None, lg',
              Some {| events := [ {| test_id := "run-1"; type := "response"; domain := "";
                                     payload := "{}"; body := [] |} ];
                      refuses := refuses accepting_DB |}).
Proof.
  split.
  - eexists. split; [vm_compute; reflexivity|]. split; reflexivity.
  - eexists. vm_compute. reflexivity.
Qed.

(** What the code keeps of [parsedURL.Host]: what comes before its first colon. *)
Lemma Split_first_piece (s sep : string) :
  exists rest,
    strings.Split s sep
    = match strings.Index s sep with
      | Some i => strings.upto i s
      | None => s
      end :: rest.
Proof.
  unfold strings.Split. destruct s as [|c s].
  - destruct sep; eexists; reflexivity.
  - cbn [String.length strings.Split_from].
    destruct (strings.Index (String c s) sep); eexists; reflexivity.
Qed.

(** The row [InsertIntoDB] writes for an event whose URL parses, on a
    database that takes the row. *)
Lemma InsertIntoDB_row (json_Marshal : any -> Result string) (lg : Logger) (d : DB)
    (testID : string) (event : Event) (text : string) (u : url.URL) (row : Row) :
  json_Marshal (Content event) = Ok text ->
  url.Parse (URL event) = Ok u ->
  row = {| test_id := testID; type := Type_ event;
           domain := match strings.Index (url.Host u) ":" with
                     | Some i => strings.upto i (url.Host u)
                     | None => url.Host u
                     end;
           payload := text; body := Body event |} ->
  refuses d (events d) row = None ->
  exists lg',
    InsertIntoDB json_Marshal lg (Some d) testID event
    = Return (None, lg', Some {| events := events d ++ [row]; refuses := refuses d |}).
Proof.
  intros Hjson Hparse -> Hok. unfold InsertIntoDB. rewrite Hjson, Hparse.
  destruct (Split_first_piece (url.Host u) ":") as (rest & ->).
  unfold DB_Exec. rewrite Hok. eexists. reflexivity.
Qed.

(** C5 at the URL of an IPv6 literal with a port: the host is "[::1]:8080",
    the bare hostname is "::1", and the row [InsertIntoDB] writes has the
    hostname "[": the cut at the first colon takes the literal apart. *)
Theorem InsertIntoDB_hostname_ip_literal (json_Marshal : any -> Result string)
    (lg : Logger) (d : DB) (testID : string) (event : Event) (text : string) :
  URL event = "http://[::1]:8080/" ->
  json_Marshal (Content event) = Ok text ->
  refuses d (events d) {| test_id := testID; type := Type_ event; domain := "[";
                          payload := text; body := Body event |} = None ->
  (exists u, url.Parse (URL event) = Ok u /\ url.Host u = "[::1]:8080"
             /\ bare_hostname (url.Host u) = "::1") /\
  exists lg',
    InsertIntoDB json_Marshal lg (Some d) testID event
    = Return (None, lg',
              Some {| events := events d ++
                                [ {| test_id := testID; type := Type_ event; domain := "[";
                                     payload := text; body := Body event |} ];
                      refuses := refuses d |}).
Proof.
  intros Hurl Hjson Hok. split.
  - rewrite Hurl. eexists. split; [vm_compute; reflexivity|]. split; reflexivity.
  - eapply InsertIntoDB_row; [exact Hjson | rewrite Hurl; vm_compute; reflexivity
                             | reflexivity | exact Hok].
Qed.

Lemma InsertIntoDB_hostname_ip_literal_witness :
  exists lg',
    InsertIntoDB marshal_braces [] (Some accepting_DB) "run-1"
      (event_with_URL "http://[::1]:8080/")
    = Return (None, lg',
              Some {| events := [ {| test_id := "run-1"; type := "response"; domain := "[";
                                     payload := "{}"; body := [] |} ];
                      refuses := refuses accepting_DB |}).
Proof.
  destruct (InsertIntoDB_hostname_ip_literal marshal_braces [] accepting_DB "run-1"
              (event_with_URL "http://[::1]:8080/") "{}" eq_refl eq_refl eq_refl)
    as [_ Hrow].
  exact Hrow.
Defined.

(** The spec's example: for https://example.com:8443/path the hostname
    written is "example.com", which is the bare hostname. *)
Example InsertIntoDB_hostname_example :
  bare_hostname "example.com:8443" = "example.com" /\
  exists lg',
    InsertIntoDB marshal_braces [] (Some accepting_DB) "run-1"
      (event_with_URL "https://example.com:8443/path")
    = Return (None, lg',
              Some {| events := [ {| test_id := "run-1"; type := "response";
                                     domain := "example.com";
                                     payload := "{}"; body := [] |} ];
                      refuses := refuses accepting_DB |}).
Proof. split; [reflexivity|]. eexists. vm_compute. reflexivity. Qed.

(** C8: when [json.Marshal] fails on the payload, [InsertIntoDB] logs it and
    goes on exactly as it does for a payload that serializes to the empty
    text: the marshal error is not returned, and when the URL parses and the
    database takes the row, the row is written with an empty payload. *)
Theorem InsertIntoDB_marshal_failure (json_Marshal : any -> Result string)
    (lg : Logger) (db : option DB) (testID : string) (event : Event)
    (merr : GoError) :
  json_Marshal (Content event) = Err merr ->
  InsertIntoDB json_Marshal lg db testID event
  = InsertIntoDB (fun _ => Ok "")
      (Logger_log LevelError "failed to marshal event content: " lg) db testID event
  /\
  (forall u d row,
     url.Parse (URL event) = Ok u -> db = Some d ->
     row = {| test_id := testID; type := Type_ event;
              domain := match strings.Index (url.Host u) ":" with
                        | Some i => strings.upto i (url.Host u)
                        | None => url.Host u
                        end;
              payload := ""; body := Body event |} ->
     refuses d (events d) row = None ->
     exists lg',
       InsertIntoDB json_Marshal lg db testID event
       = Return (None, lg', Some {| events := events d ++ [row]; refuses := refuses d |})).
Proof.
  intros Hjson.
  assert (Heq : InsertIntoDB json_Marshal lg db testID event
                = InsertIntoDB (fun _ => Ok "")
                    (Logger_log LevelError "failed to marshal event content: " lg)
                    db testID event).
  { unfold InsertIntoDB. now rewrite Hjson. }
  split; [exact Heq|].
  intros u d row Hparse -> Hrow Hok. rewrite Heq.
  eapply InsertIntoDB_row; [reflexivity | exact Hparse | exact Hrow | exact Hok].
Qed.

Lemma InsertIntoDB_marshal_failure_witness :
  exists lg',
    InsertIntoDB marshal_fails [] (Some accepting_DB) "run-1"
      (event_with_URL "https://example.com:8443/path")
    = Return (None, lg',
              Some {| events := [ {| test_id := "run-1"; type := "response";
                                     domain := "example.com";
                                     payload := ""; body := [] |} ];
                      refuses := refuses accepting_DB |}).
Proof.
  destruct (InsertIntoDB_marshal_failure marshal_fails [] (Some accepting_DB) "run-1"
              (event_with_URL "https://example.com:8443/path")
              (external_error "json: unsupported type") eq_refl) as [_ Hrow].
  destruct (url.Parse "https://example.com:8443/path") as [u|e] eqn:Hparse;
    [|vm_compute in Hparse; discriminate].
  destruct (Hrow u accepting_DB _ Hparse eq_refl eq_refl eq_refl) as (lg' & Hret).
  exists lg'. rewrite Hret. vm_compute in Hparse. injection Hparse as <-.
  vm_compute. reflexivity.
Defined.

(** ** The interleaved goroutines *)

(** A statement of the goroutine started last. *)
Lemma step_Handle_last (s : System) (hs : list Handler) (h h' : Handler)
    (w' : World) (wt' : Watcher) :
  handlers s = hs ++ [h] ->
  handler_step h (world s) (watcher s) = Return (h', w', wt') ->
  step (Handle (length hs)) s
  = Return {| world := w'; watcher := wt'; handlers := hs ++ [h'] |}.
Proof.
  intros Hhs Hstep. cbn [step]. rewrite Hhs, list_lookup_middle by reflexivity.
  rewrite Hstep. cbn [bindO fst snd].
  rewrite insert_app_r_alt by lia. now rewrite Nat.sub_diag.
Qed.

(** What a statement of the [i]-th goroutine is made of. *)
Lemma step_Handle_inv (i : nat) (s s' : System) :
  step (Handle i) s = Return s' ->
  exists h h' w' wt',
    handlers s !! i = Some h /\
    handler_step h (world s) (watcher s) = Return (h', w', wt') /\
    s' = {| world := w'; watcher := wt'; handlers := <[i := h']> (handlers s) |}.
Proof.
  cbn [step]. destruct (handlers s !! i) as [h|] eqn:Hh; [|discriminate].
  destruct (handler_step h (world s) (watcher s)) as [[[h' w'] wt']| |] eqn:Hs;
    cbn [bindO fst snd]; try discriminate.
  intros [= <-]. exists h, h', w', wt'. repeat split; assumption.
Qed.

(** The handler of a response, left alone from its start to its end, is the
    handler of [ListenToEvents] with [Responses.Add] run in one go. *)
Lemma handler_alone (ev : network.EventResponseReceived) (s : System) :
  (s1 <-! step (ResponseReceived ev) s ;; handle_to_end 5 (length (handlers s)) s1)
  = (w' <-! on_EventResponseReceived ev (world s) ;;
     Return {| world := w'; watcher := watcher s; handlers := handlers s ++ [Returned] |}).
Proof.
  destruct s as [[lg sess [m g]] wt hs]. cbn [step bindO world watcher handlers].
  unfold on_EventResponseReceived.
  cbn [handle_to_end handlers]. rewrite list_lookup_middle by reflexivity.
  erewrite step_Handle_last; [|reflexivity|reflexivity].
  cbn [bindO handle_to_end handlers]. rewrite list_lookup_middle by reflexivity.
  destruct (network.RR_Response ev) as [rsp|] eqn:Hrsp.
  - erewrite step_Handle_last; [|reflexivity|cbn [handler_step]; rewrite Hrsp; reflexivity].
    cbn [bindO handle_to_end handlers]. rewrite list_lookup_middle by reflexivity.
    destruct g as [g|].
    + erewrite step_Handle_last; [|reflexivity|reflexivity].
      cbn [bindO handle_to_end handlers]. rewrite list_lookup_middle by reflexivity.
      erewrite step_Handle_last; [|reflexivity|reflexivity].
      cbn [bindO handle_to_end handlers]. rewrite list_lookup_middle by reflexivity.
      reflexivity.
    + erewrite step_Handle_last; [|reflexivity|reflexivity].
      cbn [bindO handle_to_end handlers]. rewrite list_lookup_middle by reflexivity.
      erewrite step_Handle_last; [|reflexivity|reflexivity].
      cbn [bindO handle_to_end handlers]. rewrite list_lookup_middle by reflexivity.
      erewrite step_Handle_last; [|reflexivity|reflexivity].
      cbn [bindO handle_to_end handlers]. reflexivity.
  - cbn [step handlers]. rewrite list_lookup_middle by reflexivity.
    cbn [handler_step]. rewrite Hrsp. reflexivity.
Qed.

(** The loop of the interleaved model, left alone from the receive of a
    notification to its next receive, is [watch_event]. *)
Lemma watch_alone (event : network.EventLoadingFinished) (w : World)
    (hs : list Handler) :
  watch_until_receive 7
    {| world := set_logger w (Logger_log LevelInfo "EventLoadingFinished, getting body:"
                                         (logger w));
       watcher := AtLock event; handlers := hs |}
  = (w' <-! watch_event event w ;;
     Return {| world := w'; watcher := Receiving; handlers := hs |}).
Proof.
  destruct w as [lg [browser log] [m g]].
  unfold watch_event, GetResponseBody. go_cbn.
  destruct m; [reflexivity|]. go_cbn.
  destruct (browser (length log) _) as [e|e|body]; go_cbn; try reflexivity.
  destruct g as [g|]; go_cbn; reflexivity.
Qed.

Lemma accounted_zero (s : Session) : accounted s zero_Event.
Proof. now left. Qed.

Lemma accounted_more_calls (s s' : Session) (r : Response) :
  (forall c, c ∈ calls s -> c ∈ calls s') -> accounted s r -> accounted s' r.
Proof. intros Hsub [He|Hin]; [now left|right; now apply Hsub]. Qed.

Lemma entry_map_index (rs : Responses) (k : network.RequestID) :
  map_index (ResponseMap rs) k = default zero_Event (entry rs k).
Proof. unfold map_index, entry. now destruct (ResponseMap rs). Qed.

Lemma bodies_accounted_start (browser : nat -> network.RequestID -> Answer) :
  bodies_accounted (start browser).
Proof. split; [|split]; [intros; discriminate..|constructor]. Qed.

(** A statement of the loop keeps the invariant. *)
Lemma bodies_accounted_watch (s s' : System) :
  bodies_accounted s -> watch_step s = Return s' -> bodies_accounted s'.
Proof.
  intros (Hmap & Hheld & Hcar) Hstep.
  destruct s as [[lg sess [m g]] wt hs].
  cbn [world watcher ctx responses handlers] in Hmap, Hheld, Hcar.
  destruct wt as [|event|event|resp|r|r|r|]; go_cbn in Hstep; try discriminate.
  - destruct m; [discriminate|].
    injection Hstep as <-. split; [|split]; go_cbn; [exact Hmap|discriminate|exact Hcar].
  - injection Hstep as <-. split; [|split]; go_cbn; [exact Hmap| |exact Hcar].
    intros r [= <-].
    change (map_index g (network.LF_RequestID event))
      with (map_index (ResponseMap {| mu := m; ResponseMap := g |})
                      (network.LF_RequestID event)).
    rewrite entry_map_index.
    destruct (entry _ _) as [r|] eqn:He; cbn [default]; [now apply (Hmap _ _ He)|].
    apply accounted_zero.
  - destruct m; [|discriminate].
    injection Hstep as <-. split; [|split]; go_cbn; [exact Hmap|exact Hheld|exact Hcar].
  - assert (Hgrow : forall c a, c ∈ calls sess -> c ∈ calls sess ++ [a])
      by (intros; apply elem_of_app; now left).
    destruct (answers sess _ _) as [e|e|body] eqn:Hans;
      injection Hstep as <-; (split; [|split]; go_cbn;
        [intros k r0 He; destruct (Hmap k r0 He) as [Hk Hacc]; split; [exact Hk|];
         eapply accounted_more_calls; [|exact Hacc]; cbn [calls]; auto
        | |exact Hcar]);
      try discriminate.
    intros r0 [= <-]. right. cbn [calls Body RequestID with_Body].
    apply elem_of_app. right. now apply list_elem_of_singleton.
  - destruct m; [discriminate|].
    injection Hstep as <-. split; [|split]; go_cbn; [exact Hmap|exact Hheld|exact Hcar].
  - destruct g as [g|]; [|discriminate]. go_cbn in Hstep. injection Hstep as <-.
    split; [|split]; go_cbn; [|discriminate|exact Hcar].
    intros k r0. unfold entry. cbn [ResponseMap]. rewrite lookup_insert. case_decide as Hk.
    + intros [= <-]. split; [exact Hk|]. now apply Hheld.
    + apply (Hmap k r0).
  - destruct m; [|discriminate].
    injection Hstep as <-. split; [|split]; go_cbn; [exact Hmap|discriminate|exact Hcar].
Qed.

(** A statement of a handler keeps the invariant. *)
Lemma bodies_accounted_handle (i : nat) (s s' : System) :
  bodies_accounted s -> step (Handle i) s = Return s' -> bodies_accounted s'.
Proof.
  intros (Hmap & Hheld & Hcar) Hstep.
  destruct (step_Handle_inv i s s' Hstep) as (h & h' & w' & wt' & Hh & Hhs & ->).
  assert (Hbody : forall r, carried h = Some r -> Body r = [])
    by exact (proj1 (Forall_lookup _ _) Hcar i h Hh).
  destruct s as [[lg sess [m g]] wt hs].
  cbn [world watcher ctx responses handlers] in *.
  destruct h as [ev|ev|r|r|r|ev|ev|]; cbn [handler_step] in Hhs; try discriminate.
  - injection Hhs as <- <- <-. split; [|split]; go_cbn; [exact Hmap|exact Hheld|].
    apply Forall_insert; [exact Hcar|discriminate].
  - destruct (network.RR_Response ev) as [rsp|]; [|discriminate].
    injection Hhs as <- <- <-. split; [|split]; go_cbn; [exact Hmap|exact Hheld|].
    apply Forall_insert; [exact Hcar|]. now intros r0 [= <-].
  - cbn [responses ResponseMap] in Hhs.
    destruct g as [g|]; injection Hhs as <- <- <-;
      (split; [|split]; go_cbn; [exact Hmap|exact Hheld|]);
      (apply Forall_insert; [exact Hcar|]); intros r0 [= <-]; now apply Hbody.
  - injection Hhs as <- <- <-. split; [|split]; go_cbn; [|exact Hheld|].
    + intros k r0. unfold entry. cbn [ResponseMap]. rewrite lookup_empty. discriminate.
    + apply Forall_insert; [exact Hcar|]. intros r0 [= <-]. now apply Hbody.
  - cbn [responses ResponseMap map_assign] in Hhs.
    destruct g as [g|]; [|discriminate]. cbn [bindO] in Hhs.
    injection Hhs as <- <- <-. split; [|split]; go_cbn; [|exact Hheld|].
    + intros k r0. unfold entry. cbn [ResponseMap]. rewrite lookup_insert.
      case_decide as Hk.
      * intros [= <-]. split; [exact Hk|]. left. now apply Hbody.
      * apply (Hmap k r0).
    + apply Forall_insert; [exact Hcar|discriminate].
  - injection Hhs as <- <- <-. split; [|split]; go_cbn; [exact Hmap|exact Hheld|].
    apply Forall_insert; [exact Hcar|discriminate].
  - destruct wt; try discriminate.
    injection Hhs as <- <- <-. split; [|split]; go_cbn; [exact Hmap|discriminate|].
    apply Forall_insert; [exact Hcar|discriminate].
Qed.

Lemma bodies_accounted_step (st : Step) (s s' : System) :
  bodies_accounted s -> step st s = Return s' -> bodies_accounted s'.
Proof.
  destruct st as [ev|ev|i|].
  - intros (Hmap & Hheld & Hcar) [= <-]. split; [|split]; cbn [world watcher handlers];
      [exact Hmap|exact Hheld|].
    apply Forall_app. split; [exact Hcar|]. constructor; [discriminate|constructor].
  - intros (Hmap & Hheld & Hcar) [= <-]. split; [|split]; cbn [world watcher handlers];
      [exact Hmap|exact Hheld|].
    apply Forall_app. split; [exact Hcar|]. constructor; [discriminate|constructor].
  - apply bodies_accounted_handle.
  - apply bodies_accounted_watch.
Qed.

Lemma bodies_accounted_run (schedule : list Step) (s s' : System) :
  bodies_accounted s -> run schedule s = Return s' -> bodies_accounted s'.
Proof.
  revert s. induction schedule as [|st schedule IH]; intros s Hinv Hrun; cbn [run] in Hrun.
  - now injection Hrun as <-.
  - destruct (step st s) as [s1| |] eqn:Hstep; try discriminate.
    cbn [bindO] in Hrun. eapply IH; [|exact Hrun]. eapply bodies_accounted_step; eassumption.
Qed.

(** C2, as the code has it: at every point of every interleaving of the
    goroutines, statement by statement, from the state [main] starts in, a
    Response in the response map sits under its own requestID, and its body
    is empty or is, byte for byte, what a call to the session returned for
    that requestID; it is empty as long as no call has returned a body for
    that requestID. *)
Theorem stored_body_empty_or_fetched (browser : nat -> network.RequestID -> Answer)
    (schedule : list Step) (s : System) (k : network.RequestID) (r : Response) :
  run schedule (start browser) = Return s ->
  entry (responses (world s)) k = Some r ->
  RequestID r = k /\
  (Body r = [] \/ (k, DoBody (Body r)) ∈ calls (ctx (world s))) /\
  ((forall body, (k, DoBody body) ∉ calls (ctx (world s))) -> Body r = []).
Proof.
  intros Hrun Hentry.
  destruct (bodies_accounted_run schedule _ _ (bodies_accounted_start browser) Hrun)
    as (Hmap & _).
  destruct (Hmap k r Hentry) as [Hk Hacc]. subst k.
  split; [reflexivity|]. split; [exact Hacc|].
  intros Hnone. destruct Hacc as [He|Hin]; [exact He|]. now apply Hnone in Hin.
Qed.

Lemma stored_body_empty_or_fetched_witness :
  exists s r,
    run schedule_fetch_a (start (fun _ _ => DoBody [x68; x69])) = Return s /\
    entry (responses (world s)) "a" = Some r /\
    Body r = [x68; x69] /\
    (Body r = [] \/ ("a", DoBody (Body r)) ∈ calls (ctx (world s))).
Proof.
  eexists _, _. split; [vm_compute; reflexivity|]. split; [vm_compute; reflexivity|].
  split; [reflexivity|].
  refine (proj1 (proj2 (stored_body_empty_or_fetched (fun _ _ => DoBody [x68; x69])
                          schedule_fetch_a _ "a" _ _ _)));
    vm_compute; reflexivity.
Defined.

(** C2 as stated ties an empty body to no fetch having succeeded for the
    requestID.  That does not hold: after the body of "a" has been fetched
    and stored, a second response-received event for "a" puts a Response with
    an empty body in its place. *)
Lemma stored_body_empty_or_fetched_counterexample :
  ~ (forall (browser : nat -> network.RequestID -> Answer) (schedule : list Step)
            (s : System) (k : network.RequestID) (r : Response),
       run schedule (start browser) = Return s ->
       entry (responses (world s)) k = Some r ->
       (Body r = [] /\ forall body, (k, DoBody body) ∉ calls (ctx (world s)))
       \/ (k, DoBody (Body r)) ∈ calls (ctx (world s))).
Proof.
  intros Hclaim.
  destruct (run schedule_fetch_a_then_response (start (fun _ _ => DoBody [x68; x69])))
    as [s| |] eqn:Hrun; try (vm_compute in Hrun; discriminate).
  assert (Hentry : entry (responses (world s)) "a" = Some (Response_of event_a'
                     {| network.Response_URL := "https://example.com/2" |})).
  { vm_compute in Hrun. injection Hrun as <-. vm_compute. reflexivity. }
  assert (Hcalls : calls (ctx (world s)) = [("a", DoBody [x68; x69])]).
  { vm_compute in Hrun. now injection Hrun as <-. }
  destruct (Hclaim _ _ _ _ _ Hrun Hentry) as [[_ Hnone]|Hin].
  - apply (Hnone [x68; x69]). rewrite Hcalls. now apply list_elem_of_singleton.
  - rewrite Hcalls in Hin. apply list_elem_of_singleton in Hin. discriminate Hin.
Qed.

(** C1 on the code: the loop reads the entry in one critical section and
    writes it back in another, and [Add] does not take the lock at all.  A
    response added for the same requestID between the two is in the map when
    the lock is free, and is gone once the body is stored: the write-back
    puts the Response read earlier in its place.  [Add] also goes through
    while the loop holds the lock. *)
Theorem fetch_overwrites_concurrent_Add (w : World)
    (g : gmap network.RequestID Response) (r1 : Response)
    (ev2 : network.EventResponseReceived) (rsp2 : network.Response)
    (body : list byte) :
  let rid := network.RR_RequestID ev2 in
  mu (responses w) = false ->
  ResponseMap (responses w) = Some g ->
  g !! rid = Some r1 ->
  RequestID r1 = rid ->
  network.RR_Response ev2 = Some rsp2 ->
  next_answer w rid = DoBody body ->
  (exists s_mid s_end,
     run (schedule_stale rid ev2).1 {| world := w; watcher := Receiving; handlers := [] |}
     = Return s_mid /\
     watcher s_mid = AtRun r1 /\
     mu (responses (world s_mid)) = false /\
     entry (responses (world s_mid)) rid = Some (Response_of ev2 rsp2) /\
     run (schedule_stale rid ev2).2 s_mid = Return s_end /\
     watcher s_end = Receiving /\
     entry (responses (world s_end)) rid = Some (with_Body r1 body) /\
     URL <$> entry (responses (world s_end)) rid = Some (URL r1) /\
     Body <$> entry (responses (world s_end)) rid = Some body) /\
  (exists s_held s_added,
     run (schedule_lock_taken rid) {| world := w; watcher := Receiving; handlers := [] |}
     = Return s_held /\
     mu (responses (world s_held)) = true /\
     run (ResponseReceived ev2 :: handle_response_allocated 1) s_held = Return s_added /\
     mu (responses (world s_added)) = true /\
     entry (responses (world s_added)) rid = Some (Response_of ev2 rsp2)).
Proof.
  intros rid Hmu Hmap Hg Hid Hrsp Hans.
  destruct w as [lg [browser log] [m gm]].
  cbn [mu ResponseMap responses] in Hmu, Hmap. subst m gm.
  unfold next_answer in Hans. cbn [ctx answers calls] in Hans.
  assert (Hend : forall (gx : gmap network.RequestID Response),
            entry {| mu := false; ResponseMap := Some (<[RequestID r1 := with_Body r1 body]> gx) |}
                  rid = Some (with_Body r1 body)).
  { intros gx. unfold entry. cbn [ResponseMap]. rewrite Hid. apply lookup_insert_eq. }
  split.
  - eexists _, _. unfold schedule_stale. cbn [fst snd]. go_cbn.
    rewrite Hrsp. go_cbn.
    unfold map_index. rewrite Hg. cbn [from_option]. unfold Datatypes.id.
    split; [reflexivity|]. go_cbn. split; [reflexivity|]. split; [reflexivity|].
    split; [unfold entry; cbn [ResponseMap]; apply lookup_insert_eq|].
    rewrite Hid, Hans. go_cbn.
    split; [reflexivity|]. go_cbn. split; [reflexivity|].
    rewrite Hend. repeat split; reflexivity.
  - eexists _, _. unfold schedule_lock_taken. go_cbn.
    split; [reflexivity|]. go_cbn. split; [reflexivity|].
    rewrite Hrsp. go_cbn. split; [reflexivity|]. go_cbn. split; [reflexivity|].
    unfold entry. cbn [ResponseMap]. apply lookup_insert_eq.
Qed.

Lemma fetch_overwrites_concurrent_Add_witness :
  exists s_mid s_end,
    run (schedule_stale "a" event_a').1
      {| world := world_with_a1 (body_session [x68; x69]); watcher := Receiving;
         handlers := [] |}
    = Return s_mid /\
    URL <$> entry (responses (world s_mid)) "a" = Some "https://example.com/2" /\
    run (schedule_stale "a" event_a').2 s_mid = Return s_end /\
    URL <$> entry (responses (world s_end)) "a" = Some "https://example.com/1" /\
    Body <$> entry (responses (world s_end)) "a" = Some [x68; x69].
Proof.
  destruct (fetch_overwrites_concurrent_Add
              (world_with_a1 (body_session [x68; x69])) {["a" := response_a1]}
              response_a1 event_a' {| network.Response_URL := "https://example.com/2" |}
              [x68; x69])
    as [(s_mid & s_end & Hmid & _ & _ & Hadded & Hend & _ & _ & Hurl & Hbody) _];
    [reflexivity | reflexivity | vm_compute; reflexivity
     | reflexivity | reflexivity | reflexivity |].
  exists s_mid, s_end. cbn [network.RR_RequestID event_a'] in *.
  split; [exact Hmid|]. split; [now rewrite Hadded|]. split; [exact Hend|].
  split; [exact Hurl|exact Hbody].
Defined.

(** * Further properties of the code *)

(** ** The request side of the event store *)

(** X1: handled one after the other, request events whose Request is there
    add one Request each to the end of the sequence, in the order of the
    events, of kind "request" and with an empty body; what the sequence held
    before stays in front, untouched. *)
Theorem on_requests_appends (evs : list network.EventRequestWillBeSent)
    (reqs : list network.Request) (lg : Logger) (requests : Requests) :
  Forall2 (fun ev req => network.RWBS_Request ev = Some req) evs reqs ->
  exists lg',
    on_requests evs lg requests
    = Return (lg', requests ++ zip_with Request_of evs reqs).
Proof.
  intros Hall. revert lg requests.
  induction Hall as [|ev req evs reqs Hreq _ IH]; intros lg requests.
  - exists lg. cbn. now rewrite app_nil_r.
  - cbn [on_requests]. unfold on_EventRequestWillBeSent. rewrite Hreq.
    cbn [bindO fst snd]. unfold Requests_Add. fold (Request_of ev req).
    destruct (IH (Logger_log LevelInfo "EventRequestWillBeSent: " lg)
                 (requests ++ [Request_of ev req])) as (lg' & ->).
    exists lg'. cbn [zip_with]. now rewrite <- app_assoc.
Qed.

Lemma on_requests_appends_witness :
  exists lg',
    on_requests [request_event_1; request_event_2] [] [request_ab_cd]
    = Return (lg', [request_ab_cd; Request_of request_event_1 net_request_1;
                    Request_of request_event_2 net_request_2]).
Proof.
  apply (on_requests_appends [request_event_1; request_event_2]
           [net_request_1; net_request_2] [] [request_ab_cd]).
  repeat constructor.
Defined.

(** ** More on [SetBody] *)

Lemma range_postDataEntries_returns (l : list (option network.PostDataEntry))
    (acc postData : string) :
  range_postDataEntries l acc = Return postData ->
  exists entries, l = map Some entries.
Proof.
  revert acc. induction l as [|[e|] l IH]; intros acc Hrun; simpl in Hrun.
  - now exists [].
  - destruct (IH _ Hrun) as (entries & ->). now exists (e :: entries).
  - discriminate.
Qed.

Lemma range_postDataEntries_not_Blocked (l : list (option network.PostDataEntry))
    (acc : string) :
  range_postDataEntries l acc <> Blocked.
Proof.
  revert acc. induction l as [|[e|] l IH]; intros acc; simpl; [discriminate|apply IH|discriminate].
Qed.

(** X2: [SetBody] returns exactly when the kind is not "request" or the
    payload is a request event whose Request and post-data entries are all
    there; otherwise it panics (a foreign or nil payload, a nil Request, a
    nil entry).  It never waits. *)
Theorem SetBody_returns_iff (r : Request) :
  ((exists r', SetBody r = Return r')
   <-> (Type_ r <> "request" \/ readable_payload (Content r)))
  /\ SetBody r <> Blocked.
Proof.
  split.
  - split.
    + intros (r' & Hret). destruct (decide (Type_ r = "request")) as [Hty|Hty]; [|now left].
      right. unfold SetBody in Hret. rewrite Hty in Hret. simpl in Hret.
      destruct (Content r) as [|[ev|]|ev]; try discriminate.
      destruct (network.RWBS_Request ev) as [req|] eqn:Hreq; try discriminate.
      destruct (range_postDataEntries _ _) as [p| |] eqn:Hrun; try discriminate.
      destruct (range_postDataEntries_returns _ _ _ Hrun) as (entries & Hent).
      now exists ev, req, entries.
    + intros [Hty|(ev & req & entries & Hc & Hreq & Hent)].
      * exists r. unfold SetBody.
        destruct (String.eqb_spec (Type_ r) "request"); [contradiction|reflexivity].
      * unfold SetBody. destruct (negb _); [now exists r|].
        rewrite Hc, Hreq, Hent.
        destruct (range_postDataEntries_all entries "") as (p & -> & _).
        eexists. reflexivity.
  - unfold SetBody. destruct (negb _); [discriminate|].
    destruct (Content r) as [|[ev|]|ev]; try discriminate.
    destruct (network.RWBS_Request ev); try discriminate.
    pose proof (range_postDataEntries_not_Blocked (network.PostDataEntries r0) "") as Hnb.
    destruct (range_postDataEntries _ _); simpl; congruence.
Qed.

Lemma SetBody_returns_iff_witness :
  (exists r', SetBody request_ab_cd = Return r') /\
  ~ (exists r', SetBody request_with_response_payload = Return r').
Proof.
  split.
  - apply (proj1 (SetBody_returns_iff request_ab_cd)). right.
    eexists _, _, [ {| network.Bytes := "ab" |}; {| network.Bytes := "cd" |} ].
    repeat split; reflexivity.
  - intros Hret. apply (proj1 (SetBody_returns_iff _)) in Hret.
    destruct Hret as [Hty|(ev & req & entries & Hc & _)]; [now apply Hty|discriminate].
Defined.

(** X3: when [SetBody] returns, only the body can have changed; for a
    Request of kind "request" the new body does not depend on the body it had,
    so a second [SetBody] changes nothing more. *)
Theorem SetBody_frame (r r' : Request) :
  SetBody r = Return r' ->
  RequestID r' = RequestID r /\ Type_ r' = Type_ r /\ URL r' = URL r /\
  Content r' = Content r /\
  SetBody r' = Return r' /\
  (Type_ r = "request" -> forall b, SetBody (with_Body r b) = Return r').
Proof.
  unfold SetBody. intros Hret.
  destruct (negb (String.eqb (Type_ r) "request")) eqn:Hty.
  - injection Hret as <-. rewrite Hty. repeat split; try reflexivity.
    intros Heq. rewrite Heq in Hty. discriminate.
  - destruct (Content r) as [|[ev|]|ev] eqn:Hc; try discriminate.
    destruct (network.RWBS_Request ev) as [req|] eqn:Hreq; try discriminate.
    destruct (range_postDataEntries _ _) as [p| |] eqn:Hrun; try discriminate.
    cbn [bindO] in Hret. injection Hret as <-.
    cbn [with_Body RequestID Type_ URL Content Body].
    rewrite Hty, Hc, Hreq, Hrun. cbn [bindO].
    repeat split; reflexivity.
Qed.

Lemma SetBody_frame_witness :
  SetBody (with_Body request_ab_cd (list_byte_of_string "abcd"))
  = Return (with_Body request_ab_cd (list_byte_of_string "abcd")) /\
  SetBody (with_Body request_ab_cd [x7a])
  = Return (with_Body request_ab_cd (list_byte_of_string "abcd")).
Proof.
  destruct (SetBody_frame request_ab_cd
              (with_Body request_ab_cd (list_byte_of_string "abcd")) eq_refl)
    as (_ & _ & _ & _ & Hagain & Hany).
  split; [exact Hagain|]. exact (Hany eq_refl [x7a]).
Defined.

(** ** More on [GetResponseBody] *)

Ltac fetch_cbn :=
  cbn [bindO world responses logger ctx mu ResponseMap answers calls fst snd
       Mutex_Lock Mutex_Unlock Session_Run map_assign RequestID with_Body].

Tactic Notation "fetch_cbn" "in" hyp(H) :=
  cbn [bindO world responses logger ctx mu ResponseMap answers calls fst snd
       Mutex_Lock Mutex_Unlock Session_Run map_assign RequestID with_Body] in H.

(** X4: with the lock free and the map allocated, a retrieval that returns a
    body makes [GetResponseBody] return no error, set the body of the
    caller's Response to it, put that Response under its requestID, leave
    every other entry alone, release the lock and have called the session
    once. *)
Theorem GetResponseBody_success (r : Response) (w : World)
    (g : gmap network.RequestID Response) (body : list byte) :
  mu (responses w) = false ->
  ResponseMap (responses w) = Some g ->
  next_answer w (RequestID r) = DoBody body ->
  exists w',
    GetResponseBody r w = Return (None, with_Body r body, w') /\
    entry (responses w') (RequestID r) = Some (with_Body r body) /\
    (forall k, k <> RequestID r -> entry (responses w') k = entry (responses w) k) /\
    mu (responses w') = false /\
    calls (ctx w') = calls (ctx w) ++ [(RequestID r, DoBody body)] /\
    Body <$> entry (responses w') (RequestID r) = Some body /\
    Body (with_Body r body) = body /\ RequestID (with_Body r body) = RequestID r.
Proof.
  intros Hmu Hmap Hans. destruct w as [lg [browser log] [m gm]].
  unfold next_answer in Hans. fetch_cbn in Hmu. fetch_cbn in Hmap. fetch_cbn in Hans.
  subst m gm. unfold GetResponseBody. fetch_cbn. rewrite Hans. fetch_cbn.
  eexists. split; [reflexivity|]. unfold entry. fetch_cbn.
  split; [apply lookup_insert_eq|]. split; [|repeat split; try reflexivity].
  - intros k Hk. now apply lookup_insert_ne.
  - now rewrite lookup_insert_eq.
Qed.

Lemma GetResponseBody_success_witness :
  exists w',
    GetResponseBody response_a1 (world_with_a1 (body_session [x68; x69]))
    = Return (None, with_Body response_a1 [x68; x69], w') /\
    entry (responses w') "a" = Some (with_Body response_a1 [x68; x69]) /\
    mu (responses w') = false /\
    Body <$> entry (responses w') "a" = Some [x68; x69].
Proof.
  destruct (GetResponseBody_success response_a1
              (world_with_a1 (body_session [x68; x69])) {["a" := response_a1]}
              [x68; x69] eq_refl eq_refl eq_refl)
    as (w' & Hret & Hentry & _ & Hmu & _ & Hbody & _).
  exists w'. split; [exact Hret|]. split; [exact Hentry|]. split; [exact Hmu|exact Hbody].
Defined.

(** X5: whenever [GetResponseBody] returns, it has called the session
    exactly once, the error is nil exactly when that call returned a body,
    every entry under another requestID is as it was, the lock is in the
    state it was found in, and the caller's Response has kept its requestID. *)
Theorem GetResponseBody_returns (r r' : Response) (w w' : World) (err : error) :
  GetResponseBody r w = Return (err, r', w') ->
  calls (ctx w') = calls (ctx w) ++ [(RequestID r, next_answer w (RequestID r))] /\
  (err = None <-> exists body, next_answer w (RequestID r) = DoBody body) /\
  (forall k, k <> RequestID r -> entry (responses w') k = entry (responses w) k) /\
  mu (responses w') = mu (responses w) /\
  RequestID r' = RequestID r.
Proof.
  destruct w as [lg [browser log] [m gm]].
  unfold GetResponseBody, next_answer. fetch_cbn.
  destruct (browser (length log) (RequestID r)) as [e|e|body]; intros Hret.
  - injection Hret as <- <- <-. fetch_cbn. repeat split; try reflexivity.
    + discriminate.
    + intros (body & Hb). discriminate.
  - injection Hret as <- <- <-. fetch_cbn. repeat split; try reflexivity.
    + discriminate.
    + intros (body & Hb). discriminate.
  - destruct m; [discriminate|]. fetch_cbn in Hret.
    destruct gm as [g|]; [|discriminate]. fetch_cbn in Hret.
    injection Hret as <- <- <-. fetch_cbn. repeat split; try reflexivity.
    + now exists body.
    + intros k Hk. unfold entry. fetch_cbn. now apply lookup_insert_ne.
Qed.

Lemma GetResponseBody_returns_witness :
  exists err r' w',
    GetResponseBody response_a1 (world_with_a1 no_body_session) = Return (err, r', w') /\
    err <> None /\ length (calls (ctx w')) = 1 /\ RequestID r' = "a".
Proof.
  destruct (GetResponseBody response_a1 (world_with_a1 no_body_session))
    as [[[err r'] w']| |] eqn:Hret; try (vm_compute in Hret; discriminate).
  destruct (GetResponseBody_returns _ _ _ _ _ Hret) as (Hcalls & Herr & _ & _ & Hid).
  exists err, r', w'. split; [reflexivity|]. split; [|split; [now rewrite Hcalls|exact Hid]].
  intros Hnil. apply Herr in Hnil as (body & Hb). discriminate.
Defined.

(** X6: [GetResponseBody] panics in one case only: the session returned a
    body, the lock was free, and the response map is the nil map no [Add] has
    allocated.  It waits for ever only when the session returned a body while
    the lock was held. *)
Theorem GetResponseBody_panics_iff (r : Response) (w : World) :
  ((exists msg, GetResponseBody r w = Panic msg)
   <-> ((exists body, next_answer w (RequestID r) = DoBody body) /\
        mu (responses w) = false /\ ResponseMap (responses w) = None))
  /\
  (GetResponseBody r w = Blocked
   <-> ((exists body, next_answer w (RequestID r) = DoBody body) /\
        mu (responses w) = true)).
Proof.
  destruct w as [lg [browser log] [m gm]].
  unfold GetResponseBody, next_answer. fetch_cbn.
  destruct (browser (length log) (RequestID r)) as [e|e|body].
  - split; split; try discriminate.
    + intros (msg & Hp). discriminate.
    + intros ((body & Hb) & _). discriminate.
    + intros ((body & Hb) & _). discriminate.
  - split; split; try discriminate.
    + intros (msg & Hp). discriminate.
    + intros ((body & Hb) & _). discriminate.
    + intros ((body & Hb) & _). discriminate.
  - destruct m; fetch_cbn.
    + split; split.
      * intros (msg & Hp). discriminate.
      * intros (_ & Hmu & _). discriminate.
      * intros _. split; [now exists body|reflexivity].
      * reflexivity.
    + destruct gm as [g|]; fetch_cbn; split; split.
      * intros (msg & Hp). discriminate.
      * intros (_ & _ & Hnil). discriminate.
      * discriminate.
      * intros (_ & Hmu). discriminate.
      * intros _. split; [now exists body|split; reflexivity].
      * intros _. eexists. reflexivity.
      * discriminate.
      * intros (_ & Hmu). discriminate.
Qed.

Lemma GetResponseBody_panics_iff_witness :
  (exists msg,
     GetResponseBody response_a1
       {| logger := []; ctx := body_session [x68; x69]; responses := zero_Responses |}
     = Panic msg) /\
  ~ (exists msg,
       GetResponseBody response_a1 (world_with_a1 (body_session [x68; x69])) = Panic msg).
Proof.
  split.
  - apply (proj1 (GetResponseBody_panics_iff _ _)).
    split; [now exists [x68; x69]|split; reflexivity].
  - intros Hp. apply (proj1 (GetResponseBody_panics_iff _ _)) in Hp.
    destruct Hp as (_ & _ & Hnil). discriminate.
Defined.

(** ** More on the loop of [WatchEventFinishers] *)

(** One turn of the loop, with the lock free and the map allocated: it
    returns, whatever the session answers. *)
Lemma watch_event_allocated (event : network.EventLoadingFinished) (w : World)
    (g : gmap network.RequestID Response) :
  mu (responses w) = false ->
  ResponseMap (responses w) = Some g ->
  let resp := map_index (Some g) (network.LF_RequestID event) in
  exists w' g',
    watch_event event w = Return w' /\
    mu (responses w') = false /\
    ResponseMap (responses w') = Some g' /\
    calls (ctx w') = calls (ctx w) ++ [(RequestID resp, next_answer w (RequestID resp))] /\
    g' = match next_answer w (RequestID resp) with
         | DoBody body => <[RequestID resp := with_Body resp body]> g
         | _ => g
         end.
Proof.
  intros Hmu Hmap resp. destruct w as [lg [browser log] [m gm]].
  fetch_cbn in Hmu. fetch_cbn in Hmap. subst m gm.
  unfold watch_event, GetResponseBody, next_answer. fetch_cbn. fold resp.
  destruct (browser (length log) (RequestID resp)) as [e|e|body]; fetch_cbn;
    eexists _, _; repeat split; reflexivity.
Qed.

(** X7: a response is received and then its load finishes, with the lock
    free and a session that returns a body for its requestID: the response
    map then holds, under that requestID, the Response built from the event
    with exactly that body; the other entries are as they were before the
    two events.  This also holds from the nil map, which [Add] allocates. *)
Theorem received_then_finished (ev : network.EventResponseReceived)
    (rsp : network.Response) (w : World) (body : list byte) :
  network.RR_Response ev = Some rsp ->
  mu (responses w) = false ->
  next_answer w (network.RR_RequestID ev) = DoBody body ->
  exists w1 w2,
    on_EventResponseReceived ev w = Return w1 /\
    watch_event {| network.LF_RequestID := network.RR_RequestID ev |} w1 = Return w2 /\
    entry (responses w2) (network.RR_RequestID ev)
    = Some (with_Body (Response_of ev rsp) body) /\
    (forall k, k <> network.RR_RequestID ev ->
               entry (responses w2) k = entry (responses w) k) /\
    Body <$> entry (responses w2) (network.RR_RequestID ev) = Some body.
Proof.
  intros Hrsp Hmu Hans. unfold on_EventResponseReceived. rewrite Hrsp.
  fold (Response_of ev rsp). eexists _. 
  set (w1 := {| logger := _; ctx := ctx w; responses := _ |}).
  set (g1 := <[network.RR_RequestID ev := Response_of ev rsp]>
               (match ResponseMap (responses w) with None => ∅ | Some g => g end)).
  destruct (watch_event_allocated {| network.LF_RequestID := network.RR_RequestID ev |}
              w1 g1) as (w2 & g2 & Hret & _ & Hmap2 & _ & Hg2).
  { subst w1. unfold Responses_Add. fetch_cbn. exact Hmu. }
  { reflexivity. }
  cbn [network.LF_RequestID] in Hg2.
  assert (Hresp : map_index (Some g1) (network.RR_RequestID ev) = Response_of ev rsp).
  { unfold map_index, g1. now rewrite lookup_insert_eq. }
  rewrite Hresp in Hg2. cbn [Response_of RequestID] in Hg2.
  change (next_answer w1 (network.RR_RequestID ev))
    with (next_answer w (network.RR_RequestID ev)) in Hg2.
  rewrite Hans in Hg2.
  exists w2. split; [reflexivity|]. split; [exact Hret|].
  unfold entry. rewrite Hmap2, Hg2. split; [|split].
  - fold (Response_of ev rsp). apply lookup_insert_eq.
  - intros k Hk. rewrite lookup_insert_ne by congruence. unfold g1.
    rewrite lookup_insert_ne by congruence. now destruct (ResponseMap (responses w)).
  - now rewrite lookup_insert_eq.
Qed.

Lemma received_then_finished_witness :
  exists w1 w2,
    on_EventResponseReceived event_a
      {| logger := []; ctx := body_session [x68; x69]; responses := zero_Responses |}
    = Return w1 /\
    watch_event {| network.LF_RequestID := "a" |} w1 = Return w2 /\
    Body <$> entry (responses w2) "a" = Some [x68; x69].
Proof.
  destruct (received_then_finished event_a
              {| network.Response_URL := "https://example.com/1" |}
              {| logger := []; ctx := body_session [x68; x69]; responses := zero_Responses |}
              [x68; x69] eq_refl eq_refl eq_refl)
    as (w1 & w2 & Hadd & Hwatch & _ & _ & Hbody).
  exists w1, w2. split; [exact Hadd|]. split; [exact Hwatch|exact Hbody].
Defined.

(** X8: with the lock free and the response map allocated, the loop of
    [WatchEventFinishers] gets through any run of notifications: it neither
    panics nor waits, it asks the session once for each notification, and it
    leaves the lock free and the map allocated. *)
Theorem WatchEventFinishers_one_call_each (f : list network.EventLoadingFinished)
    (w : World) (g : gmap network.RequestID Response) :
  mu (responses w) = false ->
  ResponseMap (responses w) = Some g ->
  exists w' g',
    WatchEventFinishers f w = Return w' /\
    length (calls (ctx w')) = length (calls (ctx w)) + length f /\
    mu (responses w') = false /\
    ResponseMap (responses w') = Some g'.
Proof.
  revert w g. induction f as [|event f IH]; intros w g Hmu Hmap.
  - exists w, g. cbn. repeat split; [lia|exact Hmu|exact Hmap].
  - destruct (watch_event_allocated event w g Hmu Hmap)
      as (w1 & g1 & Hret & Hmu1 & Hmap1 & Hcalls & _).
    destruct (IH w1 g1 Hmu1 Hmap1) as (w' & g' & Hrest & Hlen & Hmu' & Hmap').
    exists w', g'. cbn [WatchEventFinishers]. rewrite Hret. cbn [bindO].
    split; [exact Hrest|]. split; [|split; assumption].
    rewrite Hlen, Hcalls, length_app. cbn. lia.
Qed.

Lemma WatchEventFinishers_one_call_each_witness :
  exists w',
    WatchEventFinishers
      [ {| network.LF_RequestID := "a" |}; {| network.LF_RequestID := "b" |};
        {| network.LF_RequestID := "a" |} ]
      (world_with_a1 no_body_session) = Return w' /\
    length (calls (ctx w')) = 3.
Proof.
  destruct (WatchEventFinishers_one_call_each
              [ {| network.LF_RequestID := "a" |}; {| network.LF_RequestID := "b" |};
                {| network.LF_RequestID := "a" |} ]
              (world_with_a1 no_body_session) {["a" := response_a1]} eq_refl eq_refl)
    as (w' & g' & Hret & Hlen & _).
  exists w'. split; [exact Hret|exact Hlen].
Defined.

Lemma with_Body_with_Body (r : Response) (b b' : list byte) :
  with_Body (with_Body r b) b' = with_Body r b'.
Proof. reflexivity. Qed.

Lemma with_Body_same (r : Response) : with_Body r (Body r) = r.
Proof. now destruct r. Qed.

(** What the loop looks up is the zero Response or an entry of the map. *)
Lemma map_index_cases (g : gmap network.RequestID Response) (id : network.RequestID) :
  (g !! id = None /\ map_index (Some g) id = zero_Event) \/
  (g !! id = Some (map_index (Some g) id)).
Proof. unfold map_index. destruct (g !! id); [now right|now left]. Qed.

(** One turn of the loop and the keys of the map. *)
Lemma watch_event_keys (event : network.EventLoadingFinished) (w w' : World) :
  keyed_by_RequestID (responses w) ->
  watch_event event w = Return w' ->
  keyed_by_RequestID (responses w') /\
  (forall k, k <> "" -> entry (responses w) k = None -> entry (responses w') k = None) /\
  (forall k r, k <> "" -> entry (responses w) k = Some r ->
               exists b, entry (responses w') k = Some (with_Body r b)).
Proof.
  intros Hkeyed Hret.
  assert (Hsame : responses w' = responses w ->
            keyed_by_RequestID (responses w') /\
            (forall k, k <> "" -> entry (responses w) k = None ->
                       entry (responses w') k = None) /\
            (forall k r, k <> "" -> entry (responses w) k = Some r ->
                         exists b, entry (responses w') k = Some (with_Body r b))).
  { intros ->. split; [exact Hkeyed|]. split; [auto|].
    intros k r _ He. exists (Body r). now rewrite with_Body_same. }
  destruct (mu (responses w)) eqn:Hmu.
  { unfold watch_event, Mutex_Lock in Hret. rewrite Hmu in Hret. discriminate. }
  destruct (ResponseMap (responses w)) as [g|] eqn:Hmap.
  - destruct (watch_event_allocated event w g Hmu Hmap)
      as (w1 & g' & Hret1 & Hmu' & Hmap' & _ & Hg').
    rewrite Hret in Hret1. injection Hret1 as <-.
    set (resp := map_index (Some g) (network.LF_RequestID event)) in *.
    destruct (next_answer w (RequestID resp)) as [e|e|body].
    1, 2: apply Hsame; destruct (responses w), (responses w'); cbn in *; congruence.
    assert (Hrid : (RequestID resp = "" /\ resp = zero_Event)
                   \/ g !! RequestID resp = Some resp).
    { destruct (map_index_cases g (network.LF_RequestID event)) as [[_ Hz]|Hin].
      - left. fold resp in Hz. now rewrite Hz.
      - right. fold resp in Hin.
        assert (Hk : RequestID resp = network.LF_RequestID event).
        { apply Hkeyed. unfold entry. now rewrite Hmap. }
        now rewrite Hk. }
    unfold keyed_by_RequestID, entry in *. rewrite Hmap in *. rewrite Hmap', Hg'.
    split; [|split].
    + intros k r. rewrite lookup_insert. case_decide as Hk.
      * intros [= <-]. exact Hk.
      * apply Hkeyed.
    + intros k Hne Hnone. rewrite lookup_insert_ne; [exact Hnone|].
      intros <-. destruct Hrid as [[He _]|Hin]; congruence.
    + intros k r Hne Hin. rewrite lookup_insert. case_decide as Hk.
      * subst k. destruct Hrid as [[He _]|Hin']; [congruence|].
        exists body. congruence.
      * exists (Body r). now rewrite with_Body_same.
  - apply Hsame.
    unfold watch_event, Mutex_Lock, Mutex_Unlock, GetResponseBody in Hret.
    destruct w as [lg [browser log] [m gm]]. fetch_cbn in Hmu. fetch_cbn in Hmap.
    subst m gm. fetch_cbn in Hret.
    destruct (browser (length log) _) as [e|e|body]; fetch_cbn in Hret;
      try discriminate; now injection Hret as <-.
Qed.

(** X9: starting from a response map whose Responses sit under their own
    requestIDs, whenever the loop of [WatchEventFinishers] gets through its
    notifications the map is still so keyed, no entry has appeared under a
    non-empty requestID that had none, and every entry under a non-empty
    requestID is the Response it was, but for its body. *)
Theorem WatchEventFinishers_keys (f : list network.EventLoadingFinished) (w w' : World) :
  keyed_by_RequestID (responses w) ->
  WatchEventFinishers f w = Return w' ->
  keyed_by_RequestID (responses w') /\
  (forall k, k <> "" -> entry (responses w) k = None -> entry (responses w') k = None) /\
  (forall k r, k <> "" -> entry (responses w) k = Some r ->
               exists b, entry (responses w') k = Some (with_Body r b)).
Proof.
  revert w. induction f as [|event f IH]; intros w Hkeyed Hret; cbn [WatchEventFinishers] in Hret.
  - injection Hret as <-. split; [exact Hkeyed|]. split; [auto|].
    intros k r _ He. exists (Body r). now rewrite with_Body_same.
  - destruct (watch_event event w) as [w1| |] eqn:Hstep; try discriminate.
    cbn [bindO] in Hret.
    destruct (watch_event_keys event w w1 Hkeyed Hstep) as (Hk1 & Hnone1 & Hsome1).
    destruct (IH w1 Hk1 Hret) as (Hk' & Hnone' & Hsome').
    split; [exact Hk'|]. split.
    + intros k Hne Hn. apply Hnone'; [exact Hne|]. now apply Hnone1.
    + intros k r Hne Hin. destruct (Hsome1 k r Hne Hin) as (b1 & Hin1).
      destruct (Hsome' k _ Hne Hin1) as (b & Hin'). exists b.
      now rewrite Hin', with_Body_with_Body.
Qed.

Lemma WatchEventFinishers_keys_witness :
  exists w',
    WatchEventFinishers
      [ {| network.LF_RequestID := "b" |}; {| network.LF_RequestID := "a" |} ]
      (world_with_a1 (body_session [x68; x69])) = Return w' /\
    entry (responses w') "b" = None /\
    exists b, entry (responses w') "a" = Some (with_Body response_a1 b).
Proof.
  destruct (WatchEventFinishers
              [ {| network.LF_RequestID := "b" |}; {| network.LF_RequestID := "a" |} ]
              (world_with_a1 (body_session [x68; x69]))) as [w'| |] eqn:Hret;
    try (vm_compute in Hret; discriminate).
  assert (Hkeyed : keyed_by_RequestID (responses (world_with_a1 (body_session [x68; x69])))).
  { intros k r. unfold entry, world_with_a1, Responses_Add. cbn [responses ResponseMap zero_Responses RequestID response_a1].
    rewrite lookup_insert. case_decide as Hk; [now intros [= <-]|].
    rewrite lookup_empty. discriminate. }
  destruct (WatchEventFinishers_keys _ _ _ Hkeyed Hret) as (_ & Hnone & Hsome).
  exists w'. split; [reflexivity|]. split.
  - apply Hnone; [discriminate|]. vm_compute. reflexivity.
  - apply Hsome; [discriminate|]. vm_compute. reflexivity.
Defined.

(** ** More on the interleaved goroutines *)

Lemma lock_follows_loop_step (st : Step) (s s' : System) :
  lock_follows_loop s -> step st s = Return s' -> lock_follows_loop s'.
Proof.
  unfold lock_follows_loop. intros Hinv Hstep.
  destruct st as [ev|ev|i|].
  - injection Hstep as <-. exact Hinv.
  - injection Hstep as <-. exact Hinv.
  - destruct (step_Handle_inv i s s' Hstep) as (h & h' & w' & wt' & _ & Hhs & ->).
    destruct s as [[lg sess [m g]] wt hs]. cbn [world watcher responses mu] in *.
    destruct h as [ev|ev|r|r|r|ev|ev|]; cbn [handler_step] in Hhs; try discriminate.
    + now injection Hhs as <- <- <-.
    + destruct (network.RR_Response ev); [|discriminate]. now injection Hhs as <- <- <-.
    + cbn [responses ResponseMap] in Hhs. destruct g; now injection Hhs as <- <- <-.
    + now injection Hhs as <- <- <-.
    + cbn [responses ResponseMap map_assign] in Hhs. destruct g; [|discriminate].
      now injection Hhs as <- <- <-.
    + now injection Hhs as <- <- <-.
    + destruct wt; try discriminate. now injection Hhs as <- <- <-.
  - destruct s as [[lg sess [m g]] wt hs]. cbn [world watcher responses mu] in Hinv.
    destruct wt as [|event|event|resp|r|r|r|]; go_cbn in Hstep; try discriminate.
    + destruct m; [discriminate|]. now injection Hstep as <-.
    + now injection Hstep as <-.
    + destruct m; [|discriminate]. now injection Hstep as <-.
    + destruct (answers sess _ _); now injection Hstep as <-.
    + destruct m; [discriminate|]. now injection Hstep as <-.
    + destruct g; [|discriminate]. go_cbn in Hstep. now injection Hstep as <-.
    + destruct m; [|discriminate]. now injection Hstep as <-.
Qed.

Lemma lock_follows_loop_run (schedule : list Step) (s s' : System) :
  lock_follows_loop s -> run schedule s = Return s' -> lock_follows_loop s'.
Proof.
  revert s. induction schedule as [|st schedule IH]; intros s Hinv Hrun; cbn [run] in Hrun.
  - now injection Hrun as <-.
  - destruct (step st s) as [s1| |] eqn:Hstep; try discriminate.
    cbn [bindO] in Hrun. eapply IH; [|exact Hrun]. eapply lock_follows_loop_step; eassumption.
Qed.

(** X10: in every state the goroutines can reach from the start of [main],
    statement by statement, the mutex is held exactly while the loop is
    between a [Lock] and its [Unlock]; so the loop's next statement waits
    only at the channel receive, never at a [Lock], and panics only at the
    assignment into a map that is still nil, never at an [Unlock]. *)
Theorem loop_never_waits_for_lock (browser : nat -> network.RequestID -> Answer)
    (schedule : list Step) (s : System) :
  run schedule (start browser) = Return s ->
  mu (responses (world s)) = in_critical_section (watcher s) /\
  (watch_step s = Blocked <-> watcher s = Receiving) /\
  (forall msg, watch_step s = Panic msg ->
     ResponseMap (responses (world s)) = None /\
     exists r, watcher s = AtAssign r).
Proof.
  intros Hrun.
  assert (Hinv : lock_follows_loop s).
  { eapply lock_follows_loop_run; [|exact Hrun]. reflexivity. }
  split; [exact Hinv|]. unfold lock_follows_loop in Hinv.
  destruct s as [[lg sess [m g]] wt hs]. cbn [world watcher responses mu] in Hinv.
  split.
  - destruct wt as [|event|event|resp|r|r|r|]; cbn [in_critical_section] in Hinv;
      subst m; go_cbn; try (split; discriminate).
    + split; reflexivity.
    + destruct (answers sess _ _); split; discriminate.
    + destruct g; split; discriminate.
  - intros msg Hp.
    destruct wt as [|event|event|resp|r|r|r|]; cbn [in_critical_section] in Hinv;
      subst m; go_cbn in Hp; try discriminate.
    + destruct (answers sess _ _); discriminate.
    + destruct g; [discriminate|]. split; [reflexivity|now exists r].
Qed.

Lemma loop_never_waits_for_lock_witness :
  exists s,
    run (schedule_lock_taken "a" ++ [ResponseReceived event_a'; Handle 1; Handle 1])
      (start (fun _ _ => DoBody [x68; x69])) = Return s /\
    mu (responses (world s)) = true /\
    watch_step s <> Blocked.
Proof.
  eexists. split; [vm_compute; reflexivity|].
  destruct (loop_never_waits_for_lock (fun _ _ => DoBody [x68; x69])
              (schedule_lock_taken "a" ++ [ResponseReceived event_a'; Handle 1; Handle 1])
              _ ltac:(vm_compute; reflexivity))
    as (Hmu & Hblocked & _).
  split; [exact Hmu|]. intros Hb. apply Hblocked in Hb. discriminate Hb.
Defined.

Lemma entry_kept_step (st : Step) (s s' : System) (k : network.RequestID) :
  is_Some (entry (responses (world s)) k) ->
  no_pending_make s ->
  step st s = Return s' ->
  is_Some (entry (responses (world s')) k) /\ no_pending_make s'.
Proof.
  unfold no_pending_make. intros Hin Hnm Hstep.
  destruct st as [ev|ev|i|].
  - injection Hstep as <-. split; [exact Hin|]. cbn [handlers].
    apply Forall_app. split; [exact Hnm|]. constructor; [discriminate|constructor].
  - injection Hstep as <-. split; [exact Hin|]. cbn [handlers].
    apply Forall_app. split; [exact Hnm|]. constructor; [discriminate|constructor].
  - destruct (step_Handle_inv i s s' Hstep) as (h & h' & w' & wt' & Hh & Hhs & ->).
    assert (Hnot : forall r, h <> AddMake r)
      by exact (proj1 (Forall_lookup _ _) Hnm i h Hh).
    destruct s as [[lg sess [m g]] wt hs]. cbn [world watcher responses handlers] in *.
    destruct h as [ev|ev|r|r|r|ev|ev|]; cbn [handler_step] in Hhs; try discriminate.
    + injection Hhs as <- <- <-. split; [exact Hin|].
      apply Forall_insert; [exact Hnm|discriminate].
    + destruct (network.RR_Response ev); [|discriminate]. injection Hhs as <- <- <-.
      split; [exact Hin|]. apply Forall_insert; [exact Hnm|discriminate].
    + cbn [responses ResponseMap] in Hhs. destruct g as [g|].
      * injection Hhs as <- <- <-. split; [exact Hin|].
        apply Forall_insert; [exact Hnm|discriminate].
      * destruct Hin as [r0 Hr0]. discriminate Hr0.
    + now destruct (Hnot r).
    + cbn [responses ResponseMap map_assign] in Hhs. destruct g as [g|]; [|discriminate].
      cbn [bindO] in Hhs. injection Hhs as <- <- <-. split.
      * unfold entry in *. go_cbn. cbn [ResponseMap] in Hin. rewrite lookup_insert.
        case_decide; [eauto|exact Hin].
      * apply Forall_insert; [exact Hnm|discriminate].
    + injection Hhs as <- <- <-. split; [exact Hin|].
      apply Forall_insert; [exact Hnm|discriminate].
    + destruct wt; try discriminate. injection Hhs as <- <- <-. split; [exact Hin|].
      apply Forall_insert; [exact Hnm|discriminate].
  - destruct s as [[lg sess [m g]] wt hs]. cbn [world responses handlers] in *.
    destruct wt as [|event|event|resp|r|r|r|]; go_cbn in Hstep; try discriminate.
    + destruct m; [discriminate|]. now injection Hstep as <-.
    + now injection Hstep as <-.
    + destruct m; [|discriminate]. now injection Hstep as <-.
    + destruct (answers sess _ _); now injection Hstep as <-.
    + destruct m; [discriminate|]. now injection Hstep as <-.
    + destruct g as [g|]; [|discriminate]. go_cbn in Hstep. injection Hstep as <-.
      split; [|exact Hnm].
      unfold entry in *. go_cbn. cbn [ResponseMap] in Hin. rewrite lookup_insert.
      case_decide; [eauto|exact Hin].
    + destruct m; [|discriminate]. now injection Hstep as <-.
Qed.

(** X11: once no handler goroutine is left that found the map nil and has
    yet to make its own, nothing is removed from the response map any more:
    along any interleaving of the goroutines, statement by statement, a
    requestID that has an entry keeps having one. *)
Theorem entries_never_removed (schedule : list Step) (s s' : System)
    (k : network.RequestID) :
  is_Some (entry (responses (world s)) k) ->
  no_pending_make s ->
  run schedule s = Return s' ->
  is_Some (entry (responses (world s')) k) /\ no_pending_make s'.
Proof.
  revert s. induction schedule as [|st schedule IH]; intros s Hin Hnm Hrun;
    cbn [run] in Hrun.
  - injection Hrun as <-. now split.
  - destruct (step st s) as [s1| |] eqn:Hstep; try discriminate.
    cbn [bindO] in Hrun.
    destruct (entry_kept_step st s s1 k Hin Hnm Hstep) as [Hin1 Hnm1].
    now apply (IH s1).
Qed.

Lemma entries_never_removed_witness :
  exists s',
    run (schedule_finish_a ++ [ResponseReceived event_a'; Handle 1; Handle 1; Handle 1; Handle 1])
      {| world := world_with_a1 (body_session [x68; x69]); watcher := Receiving;
         handlers := [] |}
    = Return s' /\
    is_Some (entry (responses (world s')) "a").
Proof.
  eexists. split; [vm_compute; reflexivity|].
  refine (proj1 (entries_never_removed
                   (schedule_finish_a
                    ++ [ResponseReceived event_a'; Handle 1; Handle 1; Handle 1; Handle 1])
                   {| world := world_with_a1 (body_session [x68; x69]);
                      watcher := Receiving; handlers := [] |}
                   _ "a" _ _ _)).
  - exists response_a1. vm_compute. reflexivity.
  - constructor.
  - vm_compute. reflexivity.
Defined.

(** X22: two response handlers that both find the response map nil each
    make a map of their own, and the map made second replaces the first with
    what was stored in it: after the schedule in which both test before
    either makes, the response stored first has no entry, while the one
    stored second has. *)
Theorem two_makes_lose_an_entry (browser : nat -> network.RequestID -> Answer)
    (ev1 ev2 : network.EventResponseReceived) (rsp1 rsp2 : network.Response) :
  network.RR_Response ev1 = Some rsp1 ->
  network.RR_Response ev2 = Some rsp2 ->
  network.RR_RequestID ev1 <> network.RR_RequestID ev2 ->
  exists s_first s_end,
    run ([ResponseReceived ev1; ResponseReceived ev2] ++ take 8 schedule_two_makes)
        (start browser) = Return s_first /\
    entry (responses (world s_first)) (network.RR_RequestID ev1)
    = Some (Response_of ev1 rsp1) /\
    run (drop 8 schedule_two_makes) s_first = Return s_end /\
    handlers s_end = [Returned; Returned] /\
    entry (responses (world s_end)) (network.RR_RequestID ev1) = None /\
    entry (responses (world s_end)) (network.RR_RequestID ev2)
    = Some (Response_of ev2 rsp2).
Proof.
  intros Hrsp1 Hrsp2 Hne. eexists _, _. unfold schedule_two_makes, start, zero_Responses.
  cbn [take drop app]. go_cbn. rewrite Hrsp1. go_cbn. rewrite Hrsp2. go_cbn.
  split; [reflexivity|]. go_cbn.
  split; [unfold entry; cbn [ResponseMap]; apply lookup_insert_eq|].
  split; [reflexivity|]. go_cbn. split; [reflexivity|].
  unfold entry. cbn [ResponseMap]. split.
  - rewrite lookup_insert_ne by congruence. apply lookup_empty.
  - apply lookup_insert_eq.
Qed.

Lemma two_makes_lose_an_entry_witness :
  exists s_first s_end,
    run ([ResponseReceived event_a; ResponseReceived event_b] ++ take 8 schedule_two_makes)
        (start (fun _ _ => DoBody [x68; x69])) = Return s_first /\
    is_Some (entry (responses (world s_first)) "a") /\
    run (drop 8 schedule_two_makes) s_first = Return s_end /\
    entry (responses (world s_end)) "a" = None /\
    is_Some (entry (responses (world s_end)) "b").
Proof.
  destruct (two_makes_lose_an_entry (fun _ _ => DoBody [x68; x69]) event_a event_b
              {| network.Response_URL := "https://example.com/1" |}
              {| network.Response_URL := "https://example.com/b" |}
              eq_refl eq_refl ltac:(discriminate))
    as (s_first & s_end & Hfirst & Hstored & Hend & _ & Hlost & Hkept).
  cbn [network.RR_RequestID event_a event_b] in Hstored, Hlost, Hkept.
  exists s_first, s_end. split; [exact Hfirst|]. split; [now rewrite Hstored|].
  split; [exact Hend|]. split; [exact Hlost|now rewrite Hkept].
Defined.

(** ** More on [InsertIntoDB] *)

(** X12: whenever [InsertIntoDB] returns on an open handle, the rows that
    were in the table are still there, in place; the error is nil exactly
    when one row was added after them, and that row carries the test ID, the
    kind and the body of the event. *)
Theorem InsertIntoDB_at_most_one_row (json_Marshal : any -> Result string)
    (lg lg' : Logger) (d : DB) (db' : option DB) (testID : string) (event : Event)
    (err : error) :
  InsertIntoDB json_Marshal lg (Some d) testID event = Return (err, lg', db') ->
  exists d',
    db' = Some d' /\ refuses d' = refuses d /\
    ((err = None /\
      exists row, events d' = events d ++ [row] /\ test_id row = testID /\
                  type row = Type_ event /\ body row = Body event)
     \/ (err <> None /\ events d' = events d)).
Proof.
  unfold InsertIntoDB. intros Hret.
  destruct (json_Marshal (Content event)) as [text|merr];
    (destruct (url.Parse (URL event)) as [u|perr];
     [ destruct (strings.Split (url.Host u) ":") as [|host rest]; [discriminate|];
       unfold DB_Exec in Hret;
       destruct (refuses d (events d) _) as [e|] eqn:Href;
       injection Hret as <- <- <-; eexists; (split; [reflexivity|]); (split; [reflexivity|]);
       [ right; split; [discriminate|reflexivity]
       | left; split; [reflexivity|]; eexists; repeat split ]
     | injection Hret as <- <- <-; exists d; split; [reflexivity|]; split; [reflexivity|];
       right; split; [discriminate|reflexivity] ]).
Qed.

Lemma InsertIntoDB_at_most_one_row_witness :
  exists lg' d',
    InsertIntoDB marshal_braces [] (Some accepting_DB) "run-1"
      (event_with_URL "https://example.com:8443/path") = Return (None, lg', Some d') /\
    length (events d') = 1.
Proof.
  destruct (InsertIntoDB marshal_braces [] (Some accepting_DB) "run-1"
              (event_with_URL "https://example.com:8443/path"))
    as [[[err lg'] db']| |] eqn:Hret; try (vm_compute in Hret; discriminate).
  destruct (InsertIntoDB_at_most_one_row _ _ _ _ _ _ _ _ Hret)
    as (d' & -> & _ & [(-> & row & Hrows & _)|(Herr & _)]).
  - exists lg', d'. split; [reflexivity|]. now rewrite Hrows.
  - exfalso. apply Herr. vm_compute in Hret. now injection Hret as <- _ _.
Defined.

(** What comes before the first occurrence of a byte does not hold that byte. *)
Lemma upto_Index_no_byte (c : ascii) (s : string) (i : nat) :
  strings.Index s (String c EmptyString) = Some i ->
  strings.Index (strings.upto i s) (String c EmptyString) = None.
Proof.
  revert i. induction s as [|a s IH]; intros i.
  - discriminate.
  - rewrite Index_byte_cons. destruct (ascii_dec c a) as [Heq|Hne].
    + intros [= <-]. now rewrite upto_0.
    + destruct (strings.Index s (String c EmptyString)) as [j|]; [|discriminate].
      intros [= <-]. rewrite upto_cons, Index_byte_cons.
      destruct (ascii_dec c a); [contradiction|]. now rewrite (IH j eq_refl).
Qed.

(** X13: the hostname [InsertIntoDB] writes is what comes before the first
    colon of the parsed host (all of it when it has none): it never holds a
    colon itself. *)
Theorem InsertIntoDB_domain_no_colon (json_Marshal : any -> Result string)
    (lg lg' : Logger) (d d' : DB) (testID : string) (event : Event) (u : url.URL) :
  url.Parse (URL event) = Ok u ->
  InsertIntoDB json_Marshal lg (Some d) testID event = Return (None, lg', Some d') ->
  exists row,
    events d' = events d ++ [row] /\
    domain row = match strings.Index (url.Host u) ":" with
                 | Some i => strings.upto i (url.Host u)
                 | None => url.Host u
                 end /\
    strings.Contains (domain row) ":" = false.
Proof.
  unfold InsertIntoDB. intros Hparse Hret. rewrite Hparse in Hret.
  destruct (Split_first_piece (url.Host u) ":") as (rest & Hsplit).
  rewrite Hsplit in Hret.
  destruct (json_Marshal (Content event)) as [text|merr];
    unfold DB_Exec in Hret;
    (destruct (refuses d (events d) _) as [e|]; [discriminate|]);
    injection Hret as _ <-; eexists; (split; [reflexivity|]); (split; [reflexivity|]);
    cbn [domain]; unfold strings.Contains;
    (destruct (strings.Index (url.Host u) ":") as [i|] eqn:Hi;
     [now rewrite (upto_Index_no_byte _ _ _ Hi)|now rewrite Hi]).
Qed.

Lemma InsertIntoDB_domain_no_colon_witness :
  exists lg' d' row,
    InsertIntoDB marshal_braces [] (Some accepting_DB) "run-1"
      (event_with_URL "http://[::1]:8080/") = Return (None, lg', Some d') /\
    events d' = [row] /\ domain row = "[" /\ strings.Contains (domain row) ":" = false.
Proof.
  destruct (InsertIntoDB marshal_braces [] (Some accepting_DB) "run-1"
              (event_with_URL "http://[::1]:8080/"))
    as [[[[e|] lg'] [d'|]]| |] eqn:Hret; try (vm_compute in Hret; discriminate).
  destruct (url.Parse "http://[::1]:8080/") as [u|] eqn:Hparse;
    [|vm_compute in Hparse; discriminate].
  destruct (InsertIntoDB_domain_no_colon marshal_braces [] lg' accepting_DB d' "run-1"
              (event_with_URL "http://[::1]:8080/") u Hparse Hret)
    as (row & Hrows & Hdom & Hno).
  exists lg', d', row. split; [reflexivity|]. split; [exact Hrows|]. split; [|exact Hno].
  rewrite Hdom. vm_compute in Hparse. injection Hparse as <-. reflexivity.
Defined.

Lemma HasPrefix_byte_upto (c : ascii) (i : nat) (s : string) :
  strings.HasPrefix s (String c EmptyString) = false ->
  strings.HasPrefix (strings.upto i s) (String c EmptyString) = false.
Proof.
  unfold strings.HasPrefix. destruct s as [|a s]; destruct i as [|i]; try reflexivity.
  rewrite upto_cons. cbn [String.prefix]. destruct (ascii_dec c a); [|reflexivity].
  destruct s; [|destruct (strings.upto i (String a0 s))]; intros; discriminate.
Qed.

(** The piece the code keeps and the bare hostname, on a host that is not a
    bracketed IP literal and whose only colon, if it has one, starts a valid
    port. *)
Lemma first_piece_is_bare_hostname (host : string) :
  strings.HasPrefix host "[" = false ->
  strings.LastIndex host ":" = strings.Index host ":" ->
  (forall i, strings.Index host ":" = Some i ->
             url.validOptionalPort (strings.from i host) = true) ->
  match strings.Index host ":" with
  | Some i => strings.upto i host
  | None => host
  end = bare_hostname host.
Proof.
  intros Hbr Hlast Hport. unfold bare_hostname. rewrite Hlast.
  destruct (strings.Index host ":") as [i|].
  - rewrite (Hport i eq_refl). now rewrite (HasPrefix_byte_upto _ i _ Hbr).
  - now rewrite Hbr.
Qed.

(** The row behind a nil error. *)
Lemma InsertIntoDB_written_row (json_Marshal : any -> Result string)
    (lg lg' : Logger) (d d' : DB) (testID : string) (event : Event) (u : url.URL) :
  url.Parse (URL event) = Ok u ->
  InsertIntoDB json_Marshal lg (Some d) testID event = Return (None, lg', Some d') ->
  exists row,
    events d' = events d ++ [row] /\
    test_id row = testID /\ type row = Type_ event /\ body row = Body event /\
    payload row = match json_Marshal (Content event) with Ok text => text | Err _ => "" end /\
    domain row = match strings.Index (url.Host u) ":" with
                 | Some i => strings.upto i (url.Host u)
                 | None => url.Host u
                 end.
Proof.
  unfold InsertIntoDB. intros Hparse Hret. rewrite Hparse in Hret.
  destruct (Split_first_piece (url.Host u) ":") as (rest & Hsplit).
  rewrite Hsplit in Hret.
  destruct (json_Marshal (Content event)) as [text|merr];
    unfold DB_Exec in Hret;
    (destruct (refuses d (events d) _) as [e|]; [discriminate|]);
    injection Hret as _ <-; eexists; (split; [reflexivity|]); repeat split.
Qed.

(** X14: for an event whose URL parses to a host that is not a bracketed IP
    literal and has at most one colon, which then starts a valid port, the
    hostname written is the bare hostname: the host without its port. *)
Theorem InsertIntoDB_bare_hostname (json_Marshal : any -> Result string)
    (lg lg' : Logger) (d d' : DB) (testID : string) (event : Event) (u : url.URL) :
  url.Parse (URL event) = Ok u ->
  strings.HasPrefix (url.Host u) "[" = false ->
  strings.LastIndex (url.Host u) ":" = strings.Index (url.Host u) ":" ->
  (forall i, strings.Index (url.Host u) ":" = Some i ->
             url.validOptionalPort (strings.from i (url.Host u)) = true) ->
  InsertIntoDB json_Marshal lg (Some d) testID event = Return (None, lg', Some d') ->
  exists row,
    events d' = events d ++ [row] /\ domain row = bare_hostname (url.Host u).
Proof.
  intros Hparse Hbr Hlast Hport Hret.
  destruct (InsertIntoDB_written_row json_Marshal lg lg' d d' testID event u
              Hparse Hret) as (row & Hrows & _ & _ & _ & _ & Hdom).
  exists row. split; [exact Hrows|].
  rewrite Hdom. now apply first_piece_is_bare_hostname.
Qed.

Lemma InsertIntoDB_bare_hostname_witness :
  exists lg' d' row,
    InsertIntoDB marshal_braces [] (Some accepting_DB) "run-1"
      (event_with_URL "https://user@example.com:8443/path") = Return (None, lg', Some d') /\
    events d' = [row] /\ domain row = "example.com".
Proof.
  destruct (InsertIntoDB marshal_braces [] (Some accepting_DB) "run-1"
              (event_with_URL "https://user@example.com:8443/path"))
    as [[[[e|] lg'] [d'|]]| |] eqn:Hret; try (vm_compute in Hret; discriminate).
  destruct (url.Parse "https://user@example.com:8443/path") as [u|] eqn:Hparse;
    [|vm_compute in Hparse; discriminate].
  assert (Hhost : url.Host u = "example.com:8443")
    by (vm_compute in Hparse; now injection Hparse as <-).
  destruct (InsertIntoDB_bare_hostname marshal_braces [] lg' accepting_DB d' "run-1"
              (event_with_URL "https://user@example.com:8443/path") u Hparse)
    as (row & Hrows & Hdom);
    [now rewrite Hhost | now rewrite Hhost
     | rewrite Hhost; intros i [= <-]; reflexivity | exact Hret |].
  exists lg', d', row. split; [reflexivity|]. split; [exact Hrows|].
  now rewrite Hdom, Hhost.
Defined.

(** X15: on the nil handle [main] is left with when [Init] fails,
    [InsertIntoDB] never reports a write: for a URL that does not parse it
    returns the parse error, and for one that parses it panics at [db.Exec]. *)
Theorem InsertIntoDB_nil_handle (json_Marshal : any -> Result string)
    (lg : Logger) (testID : string) (event : Event) :
  (forall lg' db', InsertIntoDB json_Marshal lg None testID event <> Return (None, lg', db')) /\
  (forall u, url.Parse (URL event) = Ok u ->
             exists msg, InsertIntoDB json_Marshal lg None testID event = Panic msg) /\
  (forall perr, url.Parse (URL event) = Err perr ->
                exists lg', InsertIntoDB json_Marshal lg None testID event
                            = Return (Some (fmt_Errorf "failed to parse URL: " perr), lg', None)).
Proof.
  unfold InsertIntoDB.
  destruct (json_Marshal (Content event)) as [text|merr];
    (destruct (url.Parse (URL event)) as [u|perr];
     [ destruct (Split_first_piece (url.Host u) ":") as (rest & ->)|]);
    (split; [intros lg' db'; discriminate|]);
    (split; [intros u' Hu; try discriminate; eexists; reflexivity
            |intros perr' Hp; try discriminate; injection Hp as <-; eexists; reflexivity]).
Qed.

Lemma InsertIntoDB_nil_handle_witness :
  (exists msg, InsertIntoDB marshal_braces [] None "run-1"
                 (event_with_URL "https://example.com:8443/path") = Panic msg) /\
  (exists err lg', InsertIntoDB marshal_braces [] None "run-1"
                     (event_with_URL "://example.com") = Return (Some err, lg', None)).
Proof.
  destruct (InsertIntoDB_nil_handle marshal_braces [] "run-1"
              (event_with_URL "https://example.com:8443/path")) as (_ & Hpanic & _).
  destruct (InsertIntoDB_nil_handle marshal_braces [] "run-1"
              (event_with_URL "://example.com")) as (_ & _ & Herr).
  split.
  - destruct (url.Parse "https://example.com:8443/path") as [u|] eqn:Hparse;
      [|vm_compute in Hparse; discriminate].
    exact (Hpanic u Hparse).
  - destruct (url.Parse "://example.com") as [|perr] eqn:Hparse;
      [vm_compute in Hparse; discriminate|].
    destruct (Herr perr Hparse) as (lg' & Hret). now exists (fmt_Errorf "failed to parse URL: " perr), lg'.
Defined.

(** X16: a URL that begins with a colon, whatever follows, is refused by the
    parser (its scheme is missing), so [InsertIntoDB] returns an error for
    it and hands the handle back untouched, whichever handle it is. *)
Theorem InsertIntoDB_leading_colon (json_Marshal : any -> Result string)
    (lg : Logger) (db : option DB) (testID : string) (event : Event) (rest : string) :
  URL event = String ":" rest ->
  exists perr lg',
    url.Parse (URL event) = Err perr /\
    InsertIntoDB json_Marshal lg db testID event
    = Return (Some (fmt_Errorf "failed to parse URL: " perr), lg', db).
Proof.
  intros Hurl. destruct (Parse_leading_colon rest) as (perr & Hparse).
  rewrite <- Hurl in Hparse. exists perr. unfold InsertIntoDB. rewrite Hparse.
  destruct (json_Marshal (Content event)); eexists; split; reflexivity.
Qed.

Lemma InsertIntoDB_leading_colon_witness :
  exists perr lg',
    InsertIntoDB marshal_braces [] (Some accepting_DB) "run-1"
      (event_with_URL ":8443/path#top")
    = Return (Some (fmt_Errorf "failed to parse URL: " perr), lg', Some accepting_DB).
Proof.
  destruct (InsertIntoDB_leading_colon marshal_braces [] (Some accepting_DB) "run-1"
              (event_with_URL ":8443/path#top") "8443/path#top" eq_refl)
    as (perr & lg' & _ & Hret).
  now exists perr, lg'.
Defined.

(** ** [config] *)

(** X17: [Load] takes each field from its own environment variable when the
    variable is set, even to the empty text, and from the default when it is
    not; it looks at no other variable, and what the receiver held before
    does not matter. *)
Theorem Load_reads_five_variables (env env' : config.Environ) (db db' : config.DBConfig) :
  (forall key,
     key ∈ ["DB_HOST"; "DB_PORT"; "DB_USER"; "DB_PASSWORD"; "DB_NAME"] ->
     env !! key = env' !! key) ->
  config.Load env db = config.Load env' db' /\
  (forall value, env !! "DB_HOST" = Some value -> config.Host (config.Load env db) = value) /\
  (forall value, env !! "DB_PORT" = Some value -> config.Port (config.Load env db) = value) /\
  (forall value, env !! "DB_USER" = Some value -> config.User (config.Load env db) = value) /\
  (forall value, env !! "DB_PASSWORD" = Some value ->
                 config.Password (config.Load env db) = value) /\
  (forall value, env !! "DB_NAME" = Some value -> config.DBName (config.Load env db) = value) /\
  (env !! "DB_HOST" = None -> config.Host (config.Load env db) = "localhost") /\
  (env !! "DB_PORT" = None -> config.Port (config.Load env db) = "5432") /\
  (env !! "DB_USER" = None -> config.User (config.Load env db) = "myuser") /\
  (env !! "DB_PASSWORD" = None -> config.Password (config.Load env db) = "mypassword") /\
  (env !! "DB_NAME" = None -> config.DBName (config.Load env db) = "events").
Proof.
  intros Hsame. unfold config.Load, config.getEnv. cbn.
  split.
  - rewrite !Hsame; [reflexivity|..]; set_solver.
  - repeat split; intros; repeat match goal with H : _ !! _ = _ |- _ => rewrite H end; reflexivity.
Qed.

Lemma Load_reads_five_variables_witness :
  config.Load (<["DB_PASSWORD" := ""]> (<["PATH" := "/bin"]> ∅))
    {| config.Host := "h"; config.Port := "p"; config.User := "u";
       config.Password := "pw"; config.DBName := "n" |}
  = {| config.Host := "localhost"; config.Port := "5432"; config.User := "myuser";
       config.Password := ""; config.DBName := "events" |}.
Proof.
  destruct (Load_reads_five_variables
              (<["DB_PASSWORD" := ""]> (<["PATH" := "/bin"]> ∅))
              (<["DB_PASSWORD" := ""]> ∅)
              {| config.Host := "h"; config.Port := "p"; config.User := "u";
                 config.Password := "pw"; config.DBName := "n" |}
              {| config.Host := ""; config.Port := ""; config.User := "";
                 config.Password := ""; config.DBName := "" |}) as [Hsame _].
  - intros key Hkey.
    repeat (apply elem_of_cons in Hkey as [->|Hkey]; [vm_compute; reflexivity|]).
    now apply elem_of_nil in Hkey.
  - rewrite Hsame. vm_compute. reflexivity.
Defined.

(** ** The loops of [main] *)

(** One insert into a table that refuses nothing. *)
Lemma InsertIntoDB_never_refused (json_Marshal : any -> Result string)
    (lg : Logger) (d : DB) (testID : string) (event : Event) :
  (forall rows row, refuses d rows row = None) ->
  exists err lg',
    InsertIntoDB json_Marshal lg (Some d) testID event
    = Return (err, lg',
              Some {| events := events d ++
                                match written_row json_Marshal testID event with
                                | Some row => [row]
                                | None => []
                                end;
                      refuses := refuses d |}).
Proof.
  intros Hall. unfold InsertIntoDB, written_row.
  destruct (json_Marshal (Content event)) as [text|merr];
    (destruct (url.Parse (URL event)) as [u|perr];
     [ destruct (Split_first_piece (url.Host u) ":") as (rest & ->);
       unfold DB_Exec; rewrite Hall; eexists _, _; reflexivity
     | eexists _, _; rewrite app_nil_r; destruct d; reflexivity ]).
Qed.

(** X18: on a table that refuses nothing, the loop of [main] over the
    requests, each of which [SetBody] can read, runs to its end and adds,
    after the rows that were there, one row for each request whose URL
    parses, in the order of the requests and with the body [SetBody] gave;
    a request whose URL does not parse is passed over and the loop goes on. *)
Theorem main_insert_requests_rows (json_Marshal : any -> Result string)
    (requests with_bodies : Requests) (lg : Logger) (d : DB) (testID : string) :
  (forall rows row, refuses d rows row = None) ->
  Forall2 (fun r r' => SetBody r = Return r') requests with_bodies ->
  exists lg',
    main_insert_requests json_Marshal requests lg (Some d) testID
    = Return (lg', Some {| events := events d ++
                                     omap (written_row json_Marshal testID) with_bodies;
                           refuses := refuses d |}).
Proof.
  intros Hall Hset. revert lg d Hall.
  induction Hset as [|r r' requests with_bodies Hr _ IH]; intros lg d Hall.
  - exists lg. cbn. rewrite app_nil_r. now destruct d.
  - cbn [main_insert_requests]. rewrite Hr. cbn [bindO].
    destruct (InsertIntoDB_never_refused json_Marshal lg d testID r' Hall)
      as (err & lg1 & ->). cbn [bindO].
    set (d1 := {| events := _; refuses := refuses d |}).
    destruct (IH (log_insert_error "failed to insert into database" err lg1) d1 Hall)
      as (lg' & ->).
    exists lg'. subst d1. cbn [events refuses omap list_omap].
    do 3 f_equal. rewrite <- app_assoc. f_equal.
    now destruct (written_row json_Marshal testID r').
Qed.

Lemma main_insert_requests_rows_witness :
  exists lg' d',
    main_insert_requests marshal_braces
      [Request_of request_event_1 net_request_1;
       with_Body (event_with_URL "://example.com") [x61];
       Request_of request_event_2 net_request_2]
      [] (Some accepting_DB) "run-1" = Return (lg', Some d') /\
    (domain <$> events d') = ["example.com"; "example.com"] /\
    (body <$> events d') = [[]; list_byte_of_string "q=1"].
Proof.
  destruct (main_insert_requests_rows marshal_braces
              [Request_of request_event_1 net_request_1;
               with_Body (event_with_URL "://example.com") [x61];
               Request_of request_event_2 net_request_2]
              [Request_of request_event_1 net_request_1;
               with_Body (event_with_URL "://example.com") [x61];
               with_Body (Request_of request_event_2 net_request_2)
                         (list_byte_of_string "q=1")]
              [] accepting_DB "run-1") as (lg' & Hret).
  - reflexivity.
  - repeat constructor.
  - eexists lg', _. split; [exact Hret|]. split; vm_compute; reflexivity.
Defined.

(** X19: on a table that refuses nothing, the loop of [main] over the
    responses runs to its end and adds, after the rows that were there, one
    row for each response whose URL parses, in the order the [range] met
    them and with the body each had at that time; a response whose URL does
    not parse is passed over and the loop goes on. *)
Theorem main_insert_responses_rows (json_Marshal : any -> Result string)
    (in_range_order : list Response) (lg : Logger) (d : DB) (testID : string) :
  (forall rows row, refuses d rows row = None) ->
  exists lg',
    main_insert_responses json_Marshal in_range_order lg (Some d) testID
    = Return (lg', Some {| events := events d ++
                                     omap (written_row json_Marshal testID) in_range_order;
                           refuses := refuses d |}).
Proof.
  revert lg d. induction in_range_order as [|r rest IH]; intros lg d Hall.
  - exists lg. cbn. rewrite app_nil_r. now destruct d.
  - cbn [main_insert_responses].
    destruct (InsertIntoDB_never_refused json_Marshal lg d testID r Hall)
      as (err & lg1 & ->). cbn [bindO].
    set (d1 := {| events := _; refuses := refuses d |}).
    destruct (IH (log_insert_error "failed to insert into database: " err lg1) d1 Hall)
      as (lg' & ->).
    exists lg'. subst d1. cbn [events refuses omap list_omap].
    do 3 f_equal. rewrite <- app_assoc. f_equal.
    now destruct (written_row json_Marshal testID r).
Qed.

Lemma main_insert_responses_rows_witness :
  exists lg' d',
    main_insert_responses marshal_fails
      [with_Body response_a1 [x68; x69]; event_with_URL "%zz"; response_b]
      [] (Some accepting_DB) "run-1" = Return (lg', Some d') /\
    (body <$> events d') = [[x68; x69]; []] /\
    (payload <$> events d') = [""; ""].
Proof.
  destruct (main_insert_responses_rows marshal_fails
              [with_Body response_a1 [x68; x69]; event_with_URL "%zz"; response_b]
              [] accepting_DB "run-1") as (lg' & Hret).
  - reflexivity.
  - eexists lg', _. split; [exact Hret|]. split; vm_compute; reflexivity.
Defined.

(** ** More on [Responses.Add] and [InsertIntoDB] *)

(** X20: [Add] leaves the mutex as it is and every entry under another
    requestID alone, and after it the map is allocated; two [Add] calls for
    different requestIDs give the same map in either order. *)
Theorem Add_frame_and_order (a b : Response) (rs : Responses) :
  mu (Responses_Add a rs) = mu rs /\
  ResponseMap (Responses_Add a rs) <> None /\
  (forall k, k <> RequestID a -> entry (Responses_Add a rs) k = entry rs k) /\
  (RequestID a <> RequestID b ->
   Responses_Add a (Responses_Add b rs) = Responses_Add b (Responses_Add a rs)).
Proof.
  split; [reflexivity|]. split; [discriminate|]. split.
  - intros k Hk. rewrite entry_Add. now rewrite decide_False by congruence.
  - intros Hne. unfold Responses_Add. cbn [mu ResponseMap]. f_equal. f_equal.
    now apply insert_insert_ne.
Qed.

Lemma Add_frame_and_order_witness :
  entry (Responses_Add response_b (Responses_Add response_a1 zero_Responses)) "a"
  = Some response_a1 /\
  Responses_Add response_a1 (Responses_Add response_b zero_Responses)
  = Responses_Add response_b (Responses_Add response_a1 zero_Responses).
Proof.
  destruct (Add_frame_and_order response_b response_a1
              (Responses_Add response_a1 zero_Responses)) as (_ & _ & Hframe & _).
  destruct (Add_frame_and_order response_a1 response_b zero_Responses)
    as (_ & _ & _ & Horder).
  split.
  - rewrite Hframe by discriminate. vm_compute. reflexivity.
  - apply Horder. discriminate.
Defined.

(** X21: on an open handle [InsertIntoDB] always returns: it does not
    panic, whatever the URL, the payload and the server's verdict are, and
    the index into the pieces of the host is always in range. *)
Theorem InsertIntoDB_open_handle_returns (json_Marshal : any -> Result string)
    (lg : Logger) (d : DB) (testID : string) (event : Event) :
  exists err lg' d',
    InsertIntoDB json_Marshal lg (Some d) testID event = Return (err, lg', Some d').
Proof.
  unfold InsertIntoDB.
  destruct (json_Marshal (Content event)) as [text|merr];
    (destruct (url.Parse (URL event)) as [u|perr];
     [ destruct (Split_first_piece (url.Host u) ":") as (rest & ->);
       unfold DB_Exec; destruct (refuses d (events d) _)
     |]); eexists _, _, _; reflexivity.
Qed.

